(** * NalogoService: a shallow embedding of [bot/services/nalogo_service.py]

    The service wraps the third-party [nalogo] client.  Its methods are
    coroutines that call the client, read the clock, take a lock and log.
    They are embedded as terms of a small free monad over those calls, so
    that one definition of each method is given a sequential meaning (one
    call run against an arbitrary collaborator) and an interleaved one
    (several calls sharing the lock). *)

From Stdlib Require Import ZArith QArith Qpower Ascii String DecimalString.
From Stdlib Require Import DecimalN Floats.SpecFloat.
From stdpp Require Import base option list gmap strings.

Local Open Scope string_scope.
Local Set Warnings "-register-all".

(** ** Python values *)

(** The values that cross the service boundary: what [response.json()]
    decodes, what the token provider hands back, what the client accepts as
    a request body.  [PyNone] is Python's [None]. *)
Inductive pyval : Type :=
  | PyNone
  | PyBool (b : bool)
  | PyInt (n : Z)
  | PyFloat (f : spec_float)
  | PyStr (s : string)
  | PyList (l : list pyval)
  | PyDict (d : gmap string pyval).

(** [bool(v)]: [None], [False], zero, the empty string and the empty
    containers are falsy; a NaN is truthy. *)
Definition truthy (v : pyval) : bool :=
  match v with
  | PyNone => false
  | PyBool b => b
  | PyInt n => negb (n =? 0)%Z
  | PyFloat (S754_zero _) => false
  | PyFloat _ => true
  | PyStr s => negb (String.eqb s "")
  | PyList l => match l with [] => false | _ => true end
  | PyDict d => match map_to_list d with [] => false | _ => true end
  end.

(** [a or b]: [a] when it is truthy, [b] otherwise. *)
Definition py_or (a b : pyval) : pyval := if truthy a then a else b.

(** [d.get(key)] on a dict: the value, or [None] for a missing key. *)
Definition dict_get (d : gmap string pyval) (key : string) : pyval :=
  default PyNone (d !! key).

(** ** Exceptions *)

(** [except Exception] catches instances of [Exception]; what derives from
    [BaseException] only (cancellation, interpreter exit) passes through. *)
Inductive exn_class : Type := ExceptionClass | BaseExceptionOnly.

Record exn : Type := MkExn { exn_cls : exn_class; exn_name : string }.

Definition is_Exception (e : exn) : bool :=
  match exn_cls e with ExceptionClass => true | BaseExceptionOnly => false end.

Inductive outcome (A : Type) : Type :=
  | Returned (a : A)
  | Raised (e : exn).
Arguments Returned {A} a.
Arguments Raised {A} e.

Definition AttributeError : exn := MkExn ExceptionClass "AttributeError".
Definition InvalidOperation : exn := MkExn ExceptionClass "InvalidOperation".

(** ** Text: [str.strip] *)

(** Strings are sequences of characters with code points below 256.  In that
    range [str.isspace] holds of 9..13, 28..32, 133 and 160. *)
Definition is_space (c : ascii) : bool :=
  let n := N_of_ascii c in
  ((9 <=? n) && (n <=? 13) || (28 <=? n) && (n <=? 32)
   || (n =? 133) || (n =? 160))%N.

Fixpoint lstrip_chars (l : list ascii) : list ascii :=
  match l with
  | c :: r => if is_space c then lstrip_chars r else l
  | [] => []
  end.

(** [s.strip()] *)
Definition py_strip (s : string) : string :=
  string_of_list_ascii
    (rev (lstrip_chars (rev (lstrip_chars (list_ascii_of_string s))))).

(** ** Decimals *)

(** A [decimal.Decimal]: sign, coefficient and exponent, or a special value.
    The exponent bounds of the context are not modelled. *)
Inductive Decimal : Type :=
  | DecFinite (neg : bool) (coeff : N) (exp : Z)
  | DecInfinity (neg : bool)
  | DecNaN (neg : bool) (signaling : bool) (diag : N).

Definition is_digit (c : ascii) : bool :=
  let n := N_of_ascii c in ((48 <=? n) && (n <=? 57))%N.

Definition lower (c : ascii) : ascii :=
  let n := N_of_ascii c in
  if ((65 <=? n) && (n <=? 90))%N then ascii_of_N (n + 32) else c.

Fixpoint span_digits (l : list ascii) : list ascii * list ascii :=
  match l with
  | c :: r =>
      if is_digit c then let '(d, rest) := span_digits r in (c :: d, rest)
      else ([], l)
  | [] => ([], [])
  end.

(** [int(ds)] for a run of digits; the empty run counts as zero. *)
Definition digits_value (ds : list ascii) : N :=
  fold_left (fun acc c => acc * 10 + (N_of_ascii c - 48))%N ds 0%N.

Definition strip_sign (l : list ascii) : bool * list ascii :=
  match l with
  | "-"%char :: r => (true, r)
  | "+"%char :: r => (false, r)
  | _ => (false, l)
  end.

(** The exponent part [(E[-+]?\d+)?] followed by the end of the text. *)
Definition parse_exponent (l : list ascii) : option Z :=
  match l with
  | [] => Some 0%Z
  | c :: r =>
      if Ascii.eqb (lower c) "e" then
        let '(neg, r1) := strip_sign r in
        match span_digits r1 with
        | ((_ :: _) as ds, []) =>
            let v := Z.of_N (digits_value ds) in
            Some (if neg then (- v)%Z else v)
        | _ => None
        end
      else None
  end.

(** The number branch: an integer part, an optional fraction, an optional
    exponent, with a digit in the integer part or right after the point. *)
Definition parse_number (neg : bool) (l : list ascii) : option Decimal :=
  let '(intpart, r1) := span_digits l in
  let '(fracpart, r2) :=
    match r1 with
    | "."%char :: r => span_digits r
    | _ => ([], r1)
    end in
  match (intpart ++ fracpart)%list with
  | [] => None
  | ds =>
      e ← parse_exponent r2;
      Some (DecFinite neg (digits_value ds) (e - Z.of_nat (length fracpart)))
  end.

(** The special branches: [Inf(inity)?] and [s?NaN\d*], letters in any case. *)
Definition parse_special (neg : bool) (l : list ascii) : option Decimal :=
  let low := string_of_list_ascii (map lower l) in
  if String.eqb low "inf" || String.eqb low "infinity" then
    Some (DecInfinity neg)
  else
    let '(sig, r) :=
      match map lower l with
      | "s"%char :: r => (true, r)
      | r => (false, r)
      end in
    match r with
    | "n"%char :: "a"%char :: "n"%char :: d =>
        match span_digits d with
        | (ds, []) => Some (DecNaN neg sig (digits_value ds))
        | _ => None
        end
    | _ => None
    end.

Definition remove_underscores (l : list ascii) : list ascii :=
  filter (fun c => c ≠ "_"%char) l.

(** [Decimal(s)] for a string [s]: surrounding whitespace and underscores are
    dropped, the rest must be a numeric string, else [InvalidOperation]. *)
Definition Decimal_of_str (s : string) : outcome Decimal :=
  let l := remove_underscores (list_ascii_of_string (py_strip s)) in
  let '(neg, r) := strip_sign l in
  match parse_number neg r with
  | Some d => Returned d
  | None =>
      match parse_special neg r with
      | Some d => Returned d
      | None => Raised InvalidOperation
      end
  end.

(** [str(n)] for a natural number, as a list of digits. *)
Definition digits_of_N (n : N) : list ascii :=
  list_ascii_of_string (NilZero.string_of_uint (N.to_uint n)).

Definition zeros (n : Z) : list ascii := repeat "0"%char (Z.to_nat n).

(** ["%+d" % z] *)
Definition signed_digits (z : Z) : list ascii :=
  (if (z <? 0)%Z then "-"%char else "+"%char) :: digits_of_N (Z.abs_N z).

(** [str(d)]: the scientific string of the decimal module, capitals on. *)
Definition Decimal_str (d : Decimal) : string :=
  let sign (neg : bool) := if neg then ["-"%char] else [] in
  string_of_list_ascii
    match d with
    | DecInfinity neg => sign neg ++ list_ascii_of_string "Infinity"
    | DecNaN neg sig diag =>
        sign neg ++ list_ascii_of_string (if sig then "sNaN" else "NaN")
          ++ (if (diag =? 0)%N then [] else digits_of_N diag)
    | DecFinite neg coeff exp =>
        let int := digits_of_N coeff in
        let len := Z.of_nat (length int) in
        let leftdigits := (exp + len)%Z in
        let dotplace :=
          if (exp <=? 0)%Z && (-6 <? leftdigits)%Z then leftdigits else 1%Z in
        let '(intpart, fracpart) :=
          if (dotplace <=? 0)%Z then
            (["0"%char], "."%char :: zeros (- dotplace) ++ int)
          else if (len <=? dotplace)%Z then
            (int ++ zeros (dotplace - len), [])
          else
            (take (Z.to_nat dotplace) int,
             "."%char :: drop (Z.to_nat dotplace) int) in
        let exppart :=
          if (leftdigits =? dotplace)%Z then []
          else "E"%char :: signed_digits (leftdigits - dotplace) in
        sign neg ++ intpart ++ fracpart ++ exppart
    end%list.

Definition is_finite (d : Decimal) : bool :=
  match d with DecFinite _ _ _ => true | _ => false end.

(** The rational number a finite decimal stands for. *)
Definition Decimal_value (d : Decimal) : Q :=
  match d with
  | DecFinite neg coeff exp =>
      let m := inject_Z (Z.of_N coeff) * Qpower (inject_Z 10) exp in
      if neg then - m else m
  | _ => 0
  end%Q.

(** ** The library's data *)

Inductive datetime : Type := Datetime (posix_us : Z).

(** The library's timestamp wrapper around a [datetime]. *)
Inductive AtomDateTime : Type := AtomDateTimeOf (value : datetime).

(** The client descriptor of a receipt; the service only hands it on. *)
Inductive IncomeClient : Type := IncomeClientOf (fields : gmap string pyval).

Inductive PaymentType : Type := CASH | ACCOUNT.

Module IncomeServiceItem.
Record t : Type := Build
  { name : string; amount : Decimal; quantity : Decimal }.
End IncomeServiceItem.

Module IncomeRequest.
Record t : Type := Build
  { operation_time : AtomDateTime;
    request_time : AtomDateTime;
    services : list IncomeServiceItem.t;
    total_amount : string;
    client : IncomeClient;
    payment_type : PaymentType;
    ignore_max_total_income_restriction : bool }.
End IncomeRequest.

(** What [http_client.post] returns, as far as the service looks at it: the
    outcome of its [json()] method. *)
Record Response : Type := { json : outcome pyval }.

(** What the service takes from Python and from the library without this
    repository defining it: [str] of a float, and the constructors and the
    dump of the library's data, each of which may reject its input. *)
Class Externals : Type := {
  float_str : spec_float → string;
  AtomDateTime_from_datetime : datetime → outcome AtomDateTime;
  IncomeClient_new : outcome IncomeClient;
  IncomeServiceItem_new : IncomeServiceItem.t → outcome IncomeServiceItem.t;
  IncomeRequest_new : IncomeRequest.t → outcome IncomeRequest.t;
  model_dump : IncomeRequest.t → outcome pyval
}.

(** Modelled from the spec: [IncomeServiceItem.get_total_amount] belongs to
    the [nalogo] library, whose code is not part of this repository.  The
    spec has the item derive "a total amount (amount × quantity), computed
    with exact decimal arithmetic": the coefficients are multiplied and the
    exponents added, nothing is rounded.  On special values the product
    follows the decimal module: a NaN operand gives a NaN, infinity times
    zero and a signaling NaN are invalid operations. *)
Definition get_total_amount (item : IncomeServiceItem.t) : outcome Decimal :=
  match IncomeServiceItem.amount item, IncomeServiceItem.quantity item with
  | DecFinite s1 c1 e1, DecFinite s2 c2 e2 =>
      Returned (DecFinite (xorb s1 s2) (c1 * c2) (e1 + e2))
  | DecNaN _ true _, _ | _, DecNaN _ true _ => Raised InvalidOperation
  | DecNaN s false d, _ | _, DecNaN s false d => Returned (DecNaN s false d)
  | DecInfinity s1, DecInfinity s2 => Returned (DecInfinity (xorb s1 s2))
  | DecInfinity s1, DecFinite s2 c _ | DecFinite s2 c _, DecInfinity s1 =>
      if (c =? 0)%N then Raised InvalidOperation
      else Returned (DecInfinity (xorb s1 s2))
  end.

(** ** Calls, programs and the method monad *)

(** The calls the service makes to the world outside it, indexed by the type
    of what they hand back. *)
Inductive call : Type → Type :=
  | GetToken : call pyval
  | CreateNewAccessToken (inn password : option string) : call pyval
  | Authenticate (token_json : pyval) : call pyval
  | HttpPost (path : string) (json_data : pyval) : call Response
  | Now : call AtomDateTime.

Inductive log_level : Type := INFO | WARNING | EXCEPTION.

Record log_record : Type :=
  LogRecord { level : log_level; msg : string; args : list pyval }.

(** A coroutine body: it returns, calls out and goes on with the answer
    (a value or an exception), takes or gives back the authentication lock,
    or logs. *)
Inductive prog (A : Type) : Type :=
  | Ret (a : A)
  | Call {X : Type} (c : call X) (k : outcome X → prog A)
  | Acquire (k : prog A)
  | Release (k : prog A)
  | Log (r : log_record) (k : prog A).
Arguments Ret {A} a.
Arguments Call {A X} c k.
Arguments Acquire {A} k.
Arguments Release {A} k.
Arguments Log {A} r k.

Fixpoint bind_prog {A B : Type} (p : prog A) (f : A → prog B) : prog B :=
  match p with
  | Ret a => f a
  | Call c k => Call c (fun r => bind_prog (k r) f)
  | Acquire k => Acquire (bind_prog k f)
  | Release k => Release (bind_prog k f)
  | Log r k => Log r (bind_prog k f)
  end.

(** ** The service object *)

(** The library's client object, owned by the service once configured. *)
Inductive Client : Type := ClientObject.

(** The attributes [__init__] sets.  The state of [_auth_lock] (free or
    held) belongs to the running configuration, not to this record. *)
Record NalogoService : Type := {
  inn : option string;
  password : option string;
  configured : bool;
  _client : option Client
}.

(** Truth value of an [Optional[str]]. *)
Definition str_truthy (s : option string) : bool :=
  match s with
  | Some s => negb (String.eqb s "")
  | None => false
  end.

(** A method body: it reads and may update [self], and ends in a value or
    in an exception. *)
Definition M (A : Type) : Type :=
  NalogoService → prog (outcome A * NalogoService).

Definition ret {A : Type} (a : A) : M A := fun self => Ret (Returned a, self).

Definition bind {A B : Type} (m : M A) (f : A → M B) : M B :=
  fun self =>
    bind_prog (m self) (fun '(r, self') =>
      match r with
      | Returned a => f a self'
      | Raised e => Ret (Raised e, self')
      end).

#[export] Instance M_ret : MRet M := @ret.
#[export] Instance M_bind : MBind M := fun A B f m => bind m f.

Definition get_self : M NalogoService := fun self => Ret (Returned self, self).

(** A call whose exception, if any, propagates. *)
Definition await {X : Type} (c : call X) : M X :=
  fun self => Call c (fun r => Ret (r, self)).

(** A pure library computation that may raise. *)
Definition lift {A : Type} (o : outcome A) : M A := fun self => Ret (o, self).

Definition logging (lv : log_level) (msg : string) (args : list pyval) : M unit :=
  fun self => Log (LogRecord lv msg args) (Ret (Returned tt, self)).

(** [try: body except Exception: handler] *)
Definition try_except {A : Type} (body : M A) (handler : M A) : M A :=
  fun self =>
    bind_prog (body self) (fun '(r, self') =>
      match r with
      | Returned a => Ret (Returned a, self')
      | Raised e =>
          if is_Exception e then handler self' else Ret (Raised e, self')
      end).

(** [async with self._auth_lock: body]: the lock is given back whichever
    way the body ends. *)
Definition async_with_auth_lock {A : Type} (body : M A) : M A :=
  fun self => Acquire (bind_prog (body self) (fun rs => Release (Ret rs))).

(** [NalogoService(inn, password)]: the new object and what was logged. *)
Definition __init__ (inn password : option string)
    : NalogoService * list log_record :=
  let inn' := if str_truthy inn then py_strip <$> inn else None in
  let configured := str_truthy inn' && str_truthy password in
  let self :=
    {| inn := inn'; password := password; configured := configured;
       _client := if configured then Some ClientObject else None |} in
  (self,
   if negb configured then
     [LogRecord WARNING
        "Nalogo credentials are missing. Receipt sending disabled." []]
   else []).

Definition _ensure_authenticated : M bool :=
  self ← get_self;
  if negb (bool_decide (is_Some (_client self))) then mret false
  else
    async_with_auth_lock (
      token_data ← await GetToken;
      if truthy token_data then mret true
      else
        try_except (
          token_json ← await (CreateNewAccessToken (inn self) (password self));
          _ ← await (Authenticate token_json);
          _ ← logging INFO "Nalogo authentication succeeded." [];
          mret true)
        (_ ← logging EXCEPTION "Nalogo authentication failed." [];
         mret false)).

(** [payload.get(key)]: only a dict has the method. *)
Definition payload_get (payload : pyval) (key : string) : outcome pyval :=
  match payload with
  | PyDict d => Returned (dict_get d key)
  | _ => Raised AttributeError
  end.

(** Lines 88 to 92: the three lookups joined by [or]. *)
Definition receipt_uuid_of (payload : pyval) : outcome pyval :=
  match payload_get payload "approvedReceiptUuid" with
  | Raised e => Raised e
  | Returned a =>
      if truthy a then Returned a
      else
        match payload_get payload "receiptUuid" with
        | Raised e => Raised e
        | Returned b =>
            if truthy b then Returned b
            else payload_get payload "receipt_uuid"
        end
  end.

Section Externals.
Context `{Externals}.

(** Lines 64 to 82: the item, its total and the request. *)
Definition build_request (item_name : string)
    (amount quantity : spec_float) (client : option IncomeClient)
    (operation_time : option datetime) : M IncomeRequest.t :=
  amount' ← lift (Decimal_of_str (float_str amount));
  quantity' ← lift (Decimal_of_str (float_str quantity));
  service_item ← lift (IncomeServiceItem_new
    (IncomeServiceItem.Build item_name amount' quantity'));
  total_amount ← lift (get_total_amount service_item);
  operation_time' ←
    match operation_time with
    | Some t => lift (AtomDateTime_from_datetime t)
    | None => await Now
    end;
  request_time ← await Now;
  client' ←
    match client with
    | Some c => mret c
    | None => lift IncomeClient_new
    end;
  lift (IncomeRequest_new
    (IncomeRequest.Build operation_time' request_time [service_item]
       (Decimal_str total_amount) client' ACCOUNT false)).

Definition create_income_receipt (item_name : string)
    (amount quantity : spec_float) (client : option IncomeClient)
    (operation_time : option datetime) : M pyval :=
  self ← get_self;
  if negb (configured self) then mret PyNone
  else
    authenticated ← _ensure_authenticated;
    if negb authenticated then mret PyNone
    else
      try_except (
        request ←
          build_request item_name amount quantity client operation_time;
        json_data ← lift (model_dump request);
        response ← await (HttpPost "/income" json_data);
        payload ← lift (json response);
        receipt_uuid ← lift (receipt_uuid_of payload);
        _ ← (if truthy receipt_uuid
             then logging INFO "Nalogo receipt created: %s" [receipt_uuid]
             else logging INFO
                    "Nalogo receipt created without a UUID in response." []);
        mret receipt_uuid)
      (_ ← logging EXCEPTION "Failed to create Nalogo receipt." [];
       mret PyNone).
End Externals.

Definition close : M pyval := mret PyNone.

(** ** One call, run to its end *)

(** What a run leaves behind: a call with its answer, the lock taken or given
    back, a log record. *)
Inductive entry : Type :=
  | ECall {X : Type} (c : call X) (r : outcome X)
  | EAcquire
  | ERelease
  | ELog (r : log_record).

(** The world the service talks to: the client with its token and the
    network behind it, and the clock.  Every call is answered with a value or
    an exception, and may change the world. *)
Class Collaborator (W : Type) : Type :=
  answer : ∀ X : Type, call X → W → outcome X * W.
Arguments answer {W _ X} c w.

Record run_result (A W : Type) : Type := RunResult {
  returned : A;
  world : W;
  locked : bool;
  trace : list entry
}.
Arguments RunResult {A W} returned world locked trace.
Arguments returned {A W} r.
Arguments world {A W} r.
Arguments locked {A W} r.
Arguments trace {A W} r.

Definition logged {A W : Type} (e : entry) (r : run_result A W)
    : run_result A W :=
  RunResult (returned r) (world r) (locked r) (e :: trace r).

(** A program run against a world, alone.  Taking a lock that is held would
    wait for ever, and giving back a lock that is free is an error of the
    lock itself: there is no result then. *)
Fixpoint run {W : Type} `{Collaborator W} {A : Type} (p : prog A) (w : W)
    (held : bool) : option (run_result A W) :=
  match p with
  | Ret a => Some (RunResult a w held [])
  | Call c k =>
      let '(r, w') := answer c w in
      logged (ECall c r) <$> run (k r) w' held
  | Acquire k =>
      if held then None else logged EAcquire <$> run k w true
  | Release k =>
      if held then logged ERelease <$> run k w false else None
  | Log r k => logged (ELog r) <$> run k w held
  end.

(** The POSTs of a trace: path, body and answer. *)
Definition post_of (e : entry) : option (string * pyval * outcome Response) :=
  match e with
  | @ECall X c r =>
      match c in call X return outcome X → _ with
      | HttpPost path json_data => fun r => Some (path, json_data, r)
      | _ => fun _ => None
      end r
  | _ => None
  end.

Definition posts (t : list entry) : list (string * pyval * outcome Response) :=
  omap post_of t.

Definition log_of (e : entry) : option log_record :=
  match e with ELog r => Some r | _ => None end.

Definition logs (t : list entry) : list log_record := omap log_of t.

(** The readings of the clock, in order. *)
Definition clock_of (e : entry) : option AtomDateTime :=
  match e with
  | @ECall X c r =>
      match c in call X return outcome X → _ with
      | Now => fun r => match r with Returned t => Some t | _ => None end
      | _ => fun _ => None
      end r
  | _ => None
  end.

Definition clock_readings (t : list entry) : list AtomDateTime :=
  omap clock_of t.

(** The keyword arguments of one [create_income_receipt] call. *)
Record receipt_args : Type := {
  arg_item_name : string;
  arg_amount : spec_float;
  arg_quantity : spec_float;
  arg_client : option IncomeClient;
  arg_operation_time : option datetime
}.

Section Calls.
Context `{Externals}.

Definition create_income_receipt_with (a : receipt_args) : M pyval :=
  create_income_receipt (arg_item_name a) (arg_amount a) (arg_quantity a)
    (arg_client a) (arg_operation_time a).

(** One call after the other on the same object, results in order. *)
Fixpoint create_income_receipts (l : list receipt_args) : M (list pyval) :=
  match l with
  | [] => mret []
  | a :: l' =>
      v ← create_income_receipt_with a;
      vs ← create_income_receipts l';
      mret (v :: vs)
  end.

Definition build_request_with (a : receipt_args) : M IncomeRequest.t :=
  build_request (arg_item_name a) (arg_amount a) (arg_quantity a)
    (arg_client a) (arg_operation_time a).

(** The item and the total of a call: the two numbers converted through
    their text, the item the library made of them, and its total. *)
Definition item_of (a : receipt_args) (item : IncomeServiceItem.t)
    (total : Decimal) : Prop :=
  ∃ amount' quantity',
    Decimal_of_str (float_str (arg_amount a)) = Returned amount'
    ∧ Decimal_of_str (float_str (arg_quantity a)) = Returned quantity'
    ∧ IncomeServiceItem_new
        (IncomeServiceItem.Build (arg_item_name a) amount' quantity')
      = Returned item
    ∧ get_total_amount item = Returned total.

(** The fields of the request of a call, given the readings of the clock
    the call took. *)
Definition request_fields (a : receipt_args) (readings : list AtomDateTime)
    (r0 : IncomeRequest.t) : Prop :=
  ∃ item total,
    item_of a item total
    ∧ IncomeRequest.services r0 = [item]
    ∧ IncomeRequest.total_amount r0 = Decimal_str total
    ∧ IncomeRequest.payment_type r0 = ACCOUNT
    ∧ IncomeRequest.ignore_max_total_income_restriction r0 = false
    ∧ match arg_operation_time a with
      | Some t =>
          AtomDateTime_from_datetime t
          = Returned (IncomeRequest.operation_time r0)
          ∧ readings = [IncomeRequest.request_time r0]
      | None =>
          readings
          = [IncomeRequest.operation_time r0; IncomeRequest.request_time r0]
      end
    ∧ match arg_client a with
      | Some c => IncomeRequest.client r0 = c
      | None => IncomeClient_new = Returned (IncomeRequest.client r0)
      end.
End Calls.

(** ** The lock discipline *)

(** Where a call stands with respect to the authentication lock: it has not
    taken it yet, it holds it, or it has given it back. *)
Inductive phase : Type := Before | Inside | After.

Definition inside (ph : phase) : bool :=
  match ph with Inside => true | _ => false end.

(** The handshake calls belong inside the lock, the POST after it. *)
Definition call_phase {X : Type} (c : call X) (ph : phase) : Prop :=
  match c with
  | GetToken | CreateNewAccessToken _ _ | Authenticate _ => ph = Inside
  | HttpPost _ _ => ph = After
  | Now => True
  end.

(** [wp p ph Q]: started in phase [ph], the program [p] takes the lock only
    when it has never held it, gives it back only while holding it, makes
    each call in its phase, and whatever the answers, ends with a value and
    a phase that satisfy [Q]. *)
Fixpoint wp {A : Type} (p : prog A) (ph : phase) (Q : A → phase → Prop)
    : Prop :=
  match p with
  | Ret a => Q a ph
  | Call c k => call_phase c ph ∧ ∀ r, wp (k r) ph Q
  | Acquire k => ph = Before ∧ wp k Inside Q
  | Release k => ph = Inside ∧ wp k After Q
  | Log _ k => wp k ph Q
  end.

(** ** A collaborator to run examples against *)

(** A client with a token store and canned answers, and a clock that moves on
    at every reading. *)
Record scripted : Type := {
  stored_token : outcome pyval;
  issued_token : outcome pyval;
  post_answer : outcome Response;
  clock : Z
}.

#[export] Instance scripted_collaborator : Collaborator scripted :=
  fun X c =>
    match c in call X return scripted → outcome X * scripted with
    | GetToken => fun w => (stored_token w, w)
    | CreateNewAccessToken _ _ => fun w => (issued_token w, w)
    | Authenticate token_json => fun w =>
        (Returned PyNone,
         {| stored_token := Returned token_json;
            issued_token := issued_token w;
            post_answer := post_answer w;
            clock := clock w |})
    | HttpPost _ _ => fun w => (post_answer w, w)
    | Now => fun w =>
        (Returned (AtomDateTimeOf (Datetime (clock w))),
         {| stored_token := stored_token w;
            issued_token := issued_token w;
            post_answer := post_answer w;
            clock := clock w + 1 |})
    end.

(** The doubles nearest to 19.99, 3 and 100. *)
Definition float_19_99 : spec_float := S754_finite false 5626684784446013 (-48).
Definition float_3 : spec_float := S754_finite false 6755399441055744 (-51).
Definition float_100 : spec_float := S754_finite false 7036874417766400 (-46).

(** Externals for the examples: [str] on the three floats above (any other
    float is left out of the table and answered with a text that is no
    number), and a library that accepts everything and dumps a request to a
    dict of its total and payment type. *)
#[export] Instance table_externals : Externals := {
  float_str f :=
    match f with
    | S754_finite false 5626684784446013 (-48) => "19.99"
    | S754_finite false 6755399441055744 (-51) => "3.0"
    | S754_finite false 7036874417766400 (-46) => "100.0"
    | _ => "?"
    end;
  AtomDateTime_from_datetime t := Returned (AtomDateTimeOf t);
  IncomeClient_new := Returned (IncomeClientOf ∅);
  IncomeServiceItem_new i := Returned i;
  IncomeRequest_new r := Returned r;
  model_dump r :=
    Returned (PyDict {[ "total_amount" := PyStr (IncomeRequest.total_amount r);
                        "payment_type" := PyStr "ACCOUNT" ]})
}.

Definition consulting : receipt_args :=
  {| arg_item_name := "Consulting"; arg_amount := float_100;
     arg_quantity := float_3; arg_client := None;
     arg_operation_time := None |}.

Definition subscription : receipt_args :=
  {| arg_item_name := "Subscription"; arg_amount := float_19_99;
     arg_quantity := float_3; arg_client := None;
     arg_operation_time := Some (Datetime 1699990000) |}.

Definition responding (stored : outcome pyval) (payload : pyval) : scripted :=
  {| stored_token := stored;
     issued_token := Returned (PyStr "token-json");
     post_answer := Returned {| json := Returned payload |};
     clock := 1700000000 |}.

(** The two records that line 94 and line 96 log: the receipt was created. *)
Definition is_receipt_log (r : log_record) : bool :=
  String.eqb (msg r) "Nalogo receipt created: %s"
  || String.eqb (msg r) "Nalogo receipt created without a UUID in response.".

Definition receipt_created (t : list entry) : bool :=
  existsb is_receipt_log (logs t).

(** The reading of the spec for the identifier: the value of the first of
    the three keys whose value is not [None], and [None] when there is no
    such key. *)
Definition is_None (v : pyval) : bool :=
  match v with PyNone => true | _ => false end.

Definition first_non_absent (d : gmap string pyval) : pyval :=
  default PyNone
    (find (fun v => negb (is_None v))
       (dict_get d <$> ["approvedReceiptUuid"; "receiptUuid"; "receipt_uuid"])).

(** What the three lookups joined by [or] give on a dict. *)
Definition first_truthy_or_last (d : gmap string pyval) : pyval :=
  py_or (dict_get d "approvedReceiptUuid")
    (py_or (dict_get d "receiptUuid") (dict_get d "receipt_uuid")).

(** A configured service, and worlds for the examples. *)
Definition shop_service : NalogoService :=
  (__init__ (Some " 123456789012 ") (Some "secret")).1.

Definition ConnectionError : exn := MkExn ExceptionClass "ConnectionError".

Definition lookup_failing : scripted :=
  responding (Raised ConnectionError) (PyDict ∅).

Definition token : pyval := PyDict {[ "token" := PyStr "t0" ]}.

Definition empty_first_key : gmap string pyval :=
  {[ "approvedReceiptUuid" := PyStr ""; "receiptUuid" := PyStr "xyz" ]}.

Definition empty_everywhere : gmap string pyval :=
  {[ "approvedReceiptUuid" := PyNone; "receiptUuid" := PyInt 0;
     "receipt_uuid" := PyStr "" ]}.

(** What lines 64 to 82 yield for [subscription] on the example world. *)
Definition subscription_request : IncomeRequest.t :=
  IncomeRequest.Build (AtomDateTimeOf (Datetime 1699990000))
    (AtomDateTimeOf (Datetime 1700000000))
    [IncomeServiceItem.Build "Subscription" (DecFinite false 1999 (-2))
       (DecFinite false 30 (-1))]
    "59.970" (IncomeClientOf ∅) ACCOUNT false.

Definition subscription_built
    : run_result (outcome IncomeRequest.t * NalogoService) scripted :=
  RunResult (Returned subscription_request, shop_service)
    {| stored_token := Returned token;
       issued_token := Returned (PyStr "token-json");
       post_answer := Returned {| json := Returned (PyDict ∅) |};
       clock := 1700000001 |}
    false [ECall Now (Returned (AtomDateTimeOf (Datetime 1700000000)))].

(** ** Several calls at once *)

(** A call under way: what is left of its body, and where it stands with
    respect to the lock. *)
Record task : Type := Task {
  code : prog (outcome pyval * NalogoService);
  lock_phase : phase
}.

(** The calls under way on one service, the world and the lock they share. *)
Record system (W : Type) : Type := System {
  tasks : list task;
  sys_world : W;
  sys_locked : bool
}.
Arguments System {W} tasks sys_world sys_locked.
Arguments tasks {W} s.
Arguments sys_world {W} s.
Arguments sys_locked {W} s.

(** One step of the event loop: some task makes its next move.  A call is
    answered by the world; the lock is taken only when it is free, and a
    task that finds it held stays where it is; the lock is given back by a
    task at [Release].  Between the moves of the tasks the world may change
    in any way: calls of other tasks are in flight, time passes.  Tasks may
    be switched at every move, which are more switches than the event loop
    makes. *)
Inductive step {W : Type} `{Collaborator W} : system W → system W → Prop :=
  | step_call ts w held i ph X (c : call X) k r w' :
      ts !! i = Some (Task (Call c k) ph) →
      answer c w = (r, w') →
      step (System ts w held) (System (<[i := Task (k r) ph]> ts) w' held)
  | step_acquire ts w i ph k :
      ts !! i = Some (Task (Acquire k) ph) →
      step (System ts w false) (System (<[i := Task k Inside]> ts) w true)
  | step_release ts w i ph k :
      ts !! i = Some (Task (Release k) ph) →
      step (System ts w true) (System (<[i := Task k After]> ts) w false)
  | step_log ts w held i ph r k :
      ts !! i = Some (Task (Log r k) ph) →
      step (System ts w held) (System (<[i := Task k ph]> ts) w held)
  | step_world ts w held w' :
      step (System ts w held) (System ts w' held).

Definition holds_lock (t : task) : nat :=
  if inside (lock_phase t) then 1 else 0.

(** The number of tasks between taking the lock and giving it back. *)
Definition holders (ts : list task) : nat := sum_list (holds_lock <$> ts).

Definition finished {A : Type} (p : prog A) : bool :=
  match p with Ret _ => true | _ => false end.

Section Start.
Context `{Externals}.

(** Calls of [create_income_receipt] started together on one service, none
    of which has moved yet, and the lock free. *)
Definition started {W : Type} (self : NalogoService)
    (calls : list receipt_args) (w : W) : system W :=
  System ((fun a => Task (create_income_receipt_with a self) Before) <$> calls)
    w false.
End Start.

(** Every task keeps the discipline from where it stands on, and the lock
    is held exactly when one task stands inside. *)
Definition lock_inv {W : Type} (s : system W) : Prop :=
  Forall (fun t => wp (code t) (lock_phase t) (fun _ ph => ph ≠ Inside))
    (tasks s)
  ∧ holders (tasks s) = (if sys_locked s then 1 else 0).

(** What every method guarantees at its end: [self] is the object it was
    called on, and the lock is not held. *)
Definition method_post {A : Type} (self : NalogoService)
    (rs : outcome A * NalogoService) (ph : phase) : Prop :=
  rs.2 = self ∧ ph ≠ Inside.

(** The service a construction leaves. *)
Definition constructed (inn password : option string) : NalogoService :=
  (__init__ inn password).1.

(** Two calls started together on the example service, and the state in
    which the first of them has taken the lock. *)
Definition two_calls : system scripted :=
  started shop_service [consulting; subscription]
    (responding (Returned PyNone) (PyDict ∅)).

Definition after_acquire : prog (outcome pyval * NalogoService) :=
  match create_income_receipt_with consulting shop_service with
  | Acquire k => k
  | p => p
  end.

Definition first_holds : system scripted :=
  System (<[0%nat := Task after_acquire Inside]> (tasks two_calls))
    (responding (Returned PyNone) (PyDict ∅)) true.

(** ** The handshake as a trace shows it *)

(** The calls of the authentication handshake, each with its answer. *)
Inductive handshake_call : Type :=
  | LookedUp (r : outcome pyval)
  | Acquired (inn password : option string) (r : outcome pyval)
  | Authenticated (token_json : pyval) (r : outcome pyval).

Definition handshake_of (e : entry) : option handshake_call :=
  match e with
  | @ECall X c r =>
      match c in call X return outcome X → _ with
      | GetToken => fun r => Some (LookedUp r)
      | CreateNewAccessToken i p => fun r => Some (Acquired i p r)
      | Authenticate t => fun r => Some (Authenticated t r)
      | _ => fun _ => None
      end r
  | _ => None
  end.

Definition handshake (t : list entry) : list handshake_call :=
  omap handshake_of t.

(** What an exception does at [except Exception]: it becomes the handler's
    value when it is an [Exception], and goes on otherwise. *)
Definition absorbed {A : Type} (e : exn) (handled : A) : outcome A :=
  if is_Exception e then Returned handled else Raised e.

(** The handshakes of [_ensure_authenticated] with their results: no client
    and no call; a lookup that raises; a lookup that finds a token; an
    acquisition that raises; an authentication that raises; an exchange that
    goes through.  The acquisition is given the stored credentials, and the
    authentication the token the acquisition returned. *)
Inductive handshake_result (self : NalogoService)
    : list handshake_call → outcome bool → Prop :=
  | hs_no_client :
      _client self = None →
      handshake_result self [] (Returned false)
  | hs_lookup_raised e :
      handshake_result self [LookedUp (Raised e)] (Raised e)
  | hs_token_held v :
      truthy v = true →
      handshake_result self [LookedUp (Returned v)] (Returned true)
  | hs_acquisition_raised v e :
      truthy v = false →
      handshake_result self
        [LookedUp (Returned v);
         Acquired (inn self) (password self) (Raised e)]
        (absorbed e false)
  | hs_authenticate_raised v token_json e :
      truthy v = false →
      handshake_result self
        [LookedUp (Returned v);
         Acquired (inn self) (password self) (Returned token_json);
         Authenticated token_json (Raised e)]
        (absorbed e false)
  | hs_exchanged v token_json x :
      truthy v = false →
      handshake_result self
        [LookedUp (Returned v);
         Acquired (inn self) (password self) (Returned token_json);
         Authenticated token_json (Returned x)]
        (Returned true).

(** The exceptions with which the world answered the calls of a trace. *)
Definition raised_of (e : entry) : option exn :=
  match e with
  | ECall _ (Raised x) => Some x
  | _ => None
  end.

Definition raised (t : list entry) : list exn := omap raised_of t.

Definition CancelledError : exn := MkExn BaseExceptionOnly "CancelledError".

(** The keys under which the response may carry the identifier. *)
Definition receipt_keys : list string :=
  ["approvedReceiptUuid"; "receiptUuid"; "receipt_uuid"].

Definition is_dict (v : pyval) : bool :=
  match v with PyDict _ => true | _ => false end.

(** A world whose POST raises. *)
Definition post_raising (e : exn) : scripted :=
  {| stored_token := Returned token;
     issued_token := Returned (PyStr "token-json");
     post_answer := Raised e;
     clock := 1700000000 |}.

(** No whitespace at either end. *)
Definition no_space_at_ends (s : string) : Prop :=
  (∀ c, head (list_ascii_of_string s) = Some c → is_space c = false)
  ∧ (∀ c, last (list_ascii_of_string s) = Some c → is_space c = false).

Definition all_space (s : string) : Prop :=
  Forall (fun c => is_space c = true) (list_ascii_of_string s).

(** A step of the system that is the move of task [i]. *)
Inductive move {W : Type} `{Collaborator W}
    : system W → nat → system W → Prop :=
  | move_call ts w held i ph X (c : call X) k r w' :
      ts !! i = Some (Task (Call c k) ph) →
      answer c w = (r, w') →
      move (System ts w held) i (System (<[i := Task (k r) ph]> ts) w' held)
  | move_acquire ts w i ph k :
      ts !! i = Some (Task (Acquire k) ph) →
      move (System ts w false) i (System (<[i := Task k Inside]> ts) w true)
  | move_release ts w i ph k :
      ts !! i = Some (Task (Release k) ph) →
      move (System ts w true) i (System (<[i := Task k After]> ts) w false)
  | move_log ts w held i ph r k :
      ts !! i = Some (Task (Log r k) ph) →
      move (System ts w held) i (System (<[i := Task k ph]> ts) w held).

(** ** Decimal texts *)

(** The step of [digits_value]. *)
Definition push_digit (acc : N) (c : ascii) : N :=
  (acc * 10 + (N_of_ascii c - 48))%N.

Definition uint_chars (u : Decimal.uint) : list ascii :=
  list_ascii_of_string (NilEmpty.string_of_uint u).

Abbreviation digit_run := (Forall (fun c => is_digit c = true)).

(** Where a run of digits stops: at the end, or at a character that is no
    digit. *)
Definition stops (rest : list ascii) : Prop :=
  ∀ c, head rest = Some c → is_digit c = false.

(** The text of an exponent part and the number it stands for. *)
Definition exponent_text (ex : list ascii) (z : Z) : Prop :=
  (ex = [] ∧ z = 0%Z) ∨ ex = "E"%char :: signed_digits z.

(** Characters that [Decimal] neither strips nor drops. *)
Definition clean (c : ascii) : bool :=
  negb (is_space c) && negb (Ascii.eqb c "_").

Abbreviation clean_run := (Forall (fun c => clean c = true)).

Definition sign_chars (neg : bool) : list ascii :=
  if neg then ["-"%char] else [].

Definition nan_chars (signaling : bool) : list ascii :=
  list_ascii_of_string (if signaling then "sNaN" else "NaN").

(** ** Running programs: general facts *)

Section Run.
Context {W : Type} `{Collaborator W}.

Lemma run_bind_prog {A B : Type} (p : prog A) (f : A → prog B) (w : W)
    (held : bool) :
  run (bind_prog p f) w held =
    r1 ← run p w held;
    r2 ← run (f (returned r1)) (world r1) (locked r1);
    Some (RunResult (returned r2) (world r2) (locked r2)
            (trace r1 ++ trace r2)).
Proof.
  revert w held.
  induction p as [a|X c k IH|k IH|k IH|r k IH]; intros w held; cbn.
  - destruct (run (f a) w held) as [[]|]; reflexivity.
  - destruct (answer c w) as [r w']. rewrite IH.
    destruct (run (k r) w' held) as [r1|]; cbn; [|reflexivity].
    destruct (run (f (returned r1)) (world r1) (locked r1)); reflexivity.
  - destruct held; [reflexivity|]. rewrite IH.
    destruct (run k w true) as [r1|]; cbn; [|reflexivity].
    destruct (run (f (returned r1)) (world r1) (locked r1)); reflexivity.
  - destruct held; [|reflexivity]. rewrite IH.
    destruct (run k w false) as [r1|]; cbn; [|reflexivity].
    destruct (run (f (returned r1)) (world r1) (locked r1)); reflexivity.
  - rewrite IH.
    destruct (run k w held) as [r1|]; cbn; [|reflexivity].
    destruct (run (f (returned r1)) (world r1) (locked r1)); reflexivity.
Qed.

Lemma wp_mono {A : Type} (p : prog A) (ph : phase)
    (Q Q' : A → phase → Prop) :
  (∀ a ph', Q a ph' → Q' a ph') → wp p ph Q → wp p ph Q'.
Proof.
  intros HQ. revert ph.
  induction p as [a|X c k IH|k IH|k IH|r k IH]; intros ph; cbn;
    [auto| |intros [-> ?]; auto..|auto].
  intros [? Hk]; split; [assumption|]. intros r. apply IH, Hk.
Qed.

Lemma wp_bind_prog {A B : Type} (p : prog A) (f : A → prog B) (ph : phase)
    (Q : B → phase → Prop) :
  wp p ph (fun a ph' => wp (f a) ph' Q) → wp (bind_prog p f) ph Q.
Proof.
  revert ph.
  induction p as [a|X c k IH|k IH|k IH|r k IH]; intros ph; cbn;
    [auto| |intros [-> ?]; auto..|auto].
  intros [? Hk]; split; [assumption|]. intros r. apply IH, Hk.
Qed.

(** A program that keeps the discipline runs to its end whatever the
    world answers, and the lock is held at the end exactly when the final
    phase is [Inside]. *)
Lemma run_wp {A : Type} (p : prog A) (ph : phase) (Q : A → phase → Prop)
    (w : W) :
  wp p ph Q →
  ∃ res ph', run p w (inside ph) = Some res ∧ Q (returned res) ph'
             ∧ locked res = inside ph'.
Proof.
  revert ph w.
  induction p as [a|X c k IH|k IH|k IH|r k IH]; intros ph w; cbn.
  - intros HQ. eexists _, ph. split; [reflexivity|]. split; [exact HQ|reflexivity].
  - intros [_ Hk]. destruct (answer c w) as [r w'].
    destruct (IH r ph w' (Hk r)) as (res & ph' & -> & ? & ?).
    eexists _, ph'. split; [reflexivity|]. cbn. auto.
  - intros [-> Hk]. cbn.
    destruct (IH Inside w Hk) as (res & ph' & Hr & ? & ?).
    cbn in Hr. rewrite Hr. eexists _, ph'. split; [reflexivity|]. cbn. auto.
  - intros [-> Hk]. cbn.
    destruct (IH After w Hk) as (res & ph' & Hr & ? & ?).
    cbn in Hr. rewrite Hr. eexists _, ph'. split; [reflexivity|]. cbn. auto.
  - intros Hk.
    destruct (IH ph w Hk) as (res & ph' & -> & ? & ?).
    eexists _, ph'. split; [reflexivity|]. cbn. auto.
Qed.
End Run.

(** ** The methods, one call at a time *)

Ltac unfold_methods :=
  cbv [create_income_receipt_with create_income_receipt build_request_with
       build_request
       _ensure_authenticated close mbind M_bind mret M_ret bind ret get_self
       await lift logging try_except async_with_auth_lock] in *.

(** One step through a [wp] goal: a conjunction, a quantified answer or a
    case distinction of the program. *)
Ltac wp_step :=
  match goal with
  | |- _ ∧ _ => split
  | |- ∀ _, _ => intro
  | |- context [match ?x with _ => _ end] => destruct x eqn:?
  end.

Ltac wp_auto := repeat (cbn; wp_step); cbn; try done.

Lemma py_strip_empty : py_strip "" = "".
Proof. reflexivity. Qed.

Lemma str_truthy_Some (s : option string) :
  str_truthy s = true ↔ ∃ x, s = Some x ∧ x ≠ "".
Proof.
  destruct s as [x|]; cbn.
  - rewrite negb_true_iff, String.eqb_neq. split.
    + intros Hx. exists x. auto.
    + intros (y & [= <-] & Hy). exact Hy.
  - split; [discriminate|]. intros (x & [=] & _).
Qed.

Lemma constructed_client (inn password : option string) :
  _client (constructed inn password)
  = if configured (constructed inn password) then Some ClientObject else None.
Proof. reflexivity. Qed.

Section Methods.
Context {W : Type} `{Collaborator W} `{Externals}.
#[local] Arguments Decimal_of_str : simpl never.
#[local] Arguments Decimal_str : simpl never.
#[local] Arguments get_total_amount : simpl never.
#[local] Arguments receipt_uuid_of : simpl never.
#[local] Arguments truthy : simpl never.

Lemma wp_ensure_authenticated (self : NalogoService) :
  wp (_ensure_authenticated self) Before
    (fun rs ph =>
       method_post self rs ph ∧ (rs.1 = Returned true → ph = After)).
Proof. unfold_methods. unfold method_post. wp_auto. Qed.

Lemma wp_create_income_receipt (a : receipt_args) (self : NalogoService) :
  wp (create_income_receipt_with a self) Before (method_post self).
Proof. unfold_methods. unfold method_post. wp_auto. Qed.

Lemma wp_close (self : NalogoService) :
  wp (close self) Before (method_post self).
Proof. unfold_methods. unfold method_post. wp_auto. Qed.

(** A method that keeps the discipline, called with the lock free, runs
    to its end, hands back the same object and leaves the lock free. *)
Lemma run_method {A : Type} (m : M A) (self : NalogoService) (w : W) :
  wp (m self) Before (method_post self) →
  ∃ res, run (m self) w false = Some res
         ∧ (returned res).2 = self ∧ locked res = false.
Proof.
  intros Hm.
  destruct (run_wp _ _ _ w Hm) as (res & ph & Hr & [Hs Hph] & Hl).
  exists res. split; [exact Hr|]. split; [exact Hs|].
  rewrite Hl. destruct ph; done.
Qed.

Lemma run_create_income_receipts (l : list receipt_args)
    (self : NalogoService) (w : W) :
  ∃ res, run (create_income_receipts l self) w false = Some res
         ∧ (returned res).2 = self ∧ locked res = false.
Proof.
  revert w. induction l as [|a l IH]; intros w.
  - eexists. cbn. eauto.
  - destruct (run_method (create_income_receipt_with a) self w
                (wp_create_income_receipt a self)) as (r1 & Hr1 & Hs1 & Hl1).
    cbn [create_income_receipts]. unfold mbind, M_bind, bind at 1.
    rewrite run_bind_prog, Hr1. cbn.
    destruct (returned r1) as [[v|e] self1] eqn:Hv; cbn in Hs1; subst self1.
    + rewrite Hl1. unfold bind. rewrite run_bind_prog.
      destruct (IH (world r1)) as (r2 & Hr2 & Hs2 & Hl2).
      rewrite Hr2. cbn.
      destruct (returned r2) as [[vs|e] self2] eqn:Hvs; cbn in Hs2;
        subst self2; cbn; eexists; (split; [reflexivity|]); cbn; auto.
    + rewrite Hl1. cbn. eexists. split; [reflexivity|]. cbn. auto.
Qed.

(** With nothing configured a call returns [None] at once, whatever its
    arguments and whatever the world. *)
Lemma run_unconfigured (a : receipt_args) (self : NalogoService) (w : W) :
  configured self = false →
  run (create_income_receipt_with a self) w false
  = Some (RunResult (Returned PyNone, self) w false []).
Proof. intros Hc. unfold_methods. cbn. rewrite Hc. reflexivity. Qed.

Lemma run_unconfigured_all (l : list receipt_args) (self : NalogoService)
    (w : W) :
  configured self = false →
  run (create_income_receipts l self) w false
  = Some (RunResult (Returned (replicate (length l) PyNone), self) w false []).
Proof.
  intros Hc. induction l as [|a l IH]; [reflexivity|].
  cbn [create_income_receipts]. unfold mbind, M_bind, bind at 1.
  rewrite run_bind_prog, (run_unconfigured a self w Hc). cbn.
  unfold bind. rewrite run_bind_prog, IH. reflexivity.
Qed.

(** C3: a construction yields a configured service exactly when the
    taxpayer identifier is given and is not empty once trimmed, and the
    secret is given and not empty.  When it is not configured, every call
    of [create_income_receipt], alone or as one of any sequence of calls,
    returns [None], and does so without calling out. *)
Theorem C3_configured_iff_credentials (inn password : option string) :
  (configured (constructed inn password) = true
   ↔ (∃ i, inn = Some i ∧ py_strip i ≠ "")
     ∧ (∃ p, password = Some p ∧ p ≠ ""))
  ∧ (configured (constructed inn password) = false →
     ∀ (l : list receipt_args) (a : receipt_args) (w : W),
       run (create_income_receipt_with a (constructed inn password)) w false
       = Some (RunResult (Returned PyNone, constructed inn password)
                 w false [])
       ∧ run (create_income_receipts l (constructed inn password)) w false
         = Some (RunResult (Returned (replicate (length l) PyNone),
                            constructed inn password) w false [])).
Proof.
  split.
  - unfold constructed, __init__. cbn [fst configured].
    rewrite andb_true_iff, !str_truthy_Some. split.
    + intros [(x & Hx & Hne) Hp]. split; [|exact Hp].
      destruct inn as [i|]; [|discriminate].
      exists i. split; [reflexivity|].
      destruct (str_truthy (Some i)); cbn in Hx; [|discriminate].
      injection Hx as <-. exact Hne.
    + intros [(i & -> & Hi) Hp]. split; [|exact Hp].
      assert (str_truthy (Some i) = true) as ->.
      { apply str_truthy_Some. exists i. split; [reflexivity|].
        intros ->. apply Hi, py_strip_empty. }
      exists (py_strip i). auto.
  - intros Hc l a w. split.
    + apply run_unconfigured, Hc.
    + apply run_unconfigured_all, Hc.
Qed.

(** C5: on a configured service, when the collaborator answers the token
    lookup with a token, [_ensure_authenticated] returns [True], and all it
    did was take the lock, ask for the token and give the lock back: no
    token was acquired and nothing was authenticated. *)
Theorem C5_token_held_no_exchange (inn password : option string)
    (w w' : W) (token_data : pyval) :
  configured (constructed inn password) = true →
  answer GetToken w = (Returned token_data, w') →
  truthy token_data = true →
  run (_ensure_authenticated (constructed inn password)) w false
  = Some (RunResult (Returned true, constructed inn password) w' false
            [EAcquire; ECall GetToken (Returned token_data); ERelease]).
Proof.
  intros Hc Ha Ht.
  pose proof (constructed_client inn password) as Hcl. rewrite Hc in Hcl.
  revert Hcl. generalize (constructed inn password) as self. intros self Hcl.
  unfold_methods. cbn. rewrite Hcl. cbn. rewrite Ha. cbn. rewrite Ht.
  reflexivity.
Qed.

(** C8: each operation, called on any service and run against any world,
    runs to its end and hands back the object with the fields it was called
    on, and so does any sequence of [create_income_receipt] calls: the
    identifier, the secret, the configured flag and the client are those
    the construction set. *)
Theorem C8_operations_leave_fields_unchanged (self : NalogoService)
    (a : receipt_args) (l : list receipt_args) (w : W) :
  (∃ res, run (create_income_receipt_with a self) w false = Some res
          ∧ (returned res).2 = self)
  ∧ (∃ res, run (_ensure_authenticated self) w false = Some res
            ∧ (returned res).2 = self)
  ∧ (∃ res, run (close self) w false = Some res ∧ (returned res).2 = self)
  ∧ (∃ res, run (create_income_receipts l self) w false = Some res
            ∧ (returned res).2 = self).
Proof.
  repeat split.
  - destruct (run_method _ self w (wp_create_income_receipt a self))
      as (res & ? & ? & _); eauto.
  - assert (wp (_ensure_authenticated self) Before (method_post self)) as Hm.
    { eapply wp_mono; [|apply wp_ensure_authenticated]. cbn. tauto. }
    destruct (run_method _ self w Hm) as (res & ? & ? & _); eauto.
  - destruct (run_method _ self w (wp_close self)) as (res & ? & ? & _); eauto.
  - destruct (run_create_income_receipts l self w) as (res & ? & ? & _); eauto.
Qed.
End Methods.

(** ** Receipts *)

(** Case analysis of a run recorded in hypothesis [H]: each answer of the
    world and each outcome of the library is split in two. *)
Ltac run_step H :=
  match type of H with
  | context [answer ?c ?w] => destruct (answer c w) as [[?|?] ?] eqn:?
  | context [match ?x with _ => _ end] => destruct x eqn:?
  | context [if ?x then _ else _] => destruct x eqn:?
  end.

Ltac run_cases H :=
  unfold_methods; cbn in H; repeat (run_step H; cbn in H); simplify_eq;
  cbn in *; simplify_eq.

Section Receipts.
Context {W : Type} `{Collaborator W} `{Externals}.
#[local] Arguments Decimal_of_str : simpl never.
#[local] Arguments Decimal_str : simpl never.
#[local] Arguments get_total_amount : simpl never.
#[local] Arguments receipt_uuid_of : simpl never.
#[local] Arguments truthy : simpl never.
#[local] Arguments is_Exception : simpl never.

Implicit Types (a : receipt_args) (self : NalogoService) (w : W).
Implicit Types (res : run_result (outcome pyval * NalogoService) W).

(** An exception that leaves [create_income_receipt] was raised by the
    token lookup, or is no instance of [Exception]. *)
Lemma escaped_exception_origin a self w res (e : exn) :
  run (create_income_receipt_with a self) w false = Some res →
  (returned res).1 = Raised e →
  (∃ w', answer GetToken w = (Raised e, w')) ∨ is_Exception e = false.
Proof.
  intros Hr He. run_cases Hr.
  all: try (left; eexists; reflexivity); try (right; assumption).
Qed.

(** [_ensure_authenticated] posts nothing. *)
Lemma ensure_authenticated_no_post self w
    (r1 : run_result (outcome bool * NalogoService) W) :
  run (_ensure_authenticated self) w false = Some r1 →
  posts (trace r1) = [].
Proof. intros Hr. run_cases Hr; reflexivity. Qed.

(** A call on a configured service starts with [_ensure_authenticated]
    and stops there unless that returns [True]. *)
Lemma run_not_authenticated a self w
    (r1 : run_result (outcome bool * NalogoService) W) :
  configured self = true →
  run (_ensure_authenticated self) w false = Some r1 →
  (returned r1).1 ≠ Returned true →
  ∃ res, run (create_income_receipt_with a self) w false = Some res
         ∧ trace res = trace r1
         ∧ (returned res).1
           = match (returned r1).1 with
             | Returned _ => Returned PyNone
             | Raised e => Raised e
             end.
Proof.
  intros Hc Hr Hf.
  unfold create_income_receipt_with, create_income_receipt.
  unfold mbind, M_bind, bind at 1. unfold get_self. cbn [bind_prog].
  rewrite Hc. cbn [negb]. unfold bind. rewrite run_bind_prog, Hr. cbn.
  destruct (returned r1) as [[[]|e] self1]; cbn in *; try done;
    eexists; (split; [reflexivity|]); cbn; rewrite app_nil_r; done.
Qed.

(** C4: a call issues at most one POST; it issues exactly one when it
    gets as far as logging that the receipt was created; it issues none
    when the service is not configured, and none when
    [_ensure_authenticated] returns [False]. *)
Theorem C4_one_post_on_success_none_on_failed_precondition a self w res :
  run (create_income_receipt_with a self) w false = Some res →
  (List.length (posts (trace res)) ≤ 1)%nat
  ∧ (receipt_created (trace res) = true → List.length (posts (trace res)) = 1)
  ∧ (configured self = false → posts (trace res) = [])
  ∧ (∀ r1 : run_result (outcome bool * NalogoService) W,
       run (_ensure_authenticated self) w false = Some r1 →
       (returned r1).1 = Returned false →
       posts (trace res) = []).
Proof.
  intros Hr. split; [|split; [|split]].
  - run_cases Hr; lia.
  - run_cases Hr; intros; done.
  - intros Hc. rewrite (run_unconfigured a self w Hc) in Hr.
    by simplify_eq.
  - intros r1 Hr1 Hf. destruct (configured self) eqn:Hc.
    + destruct (run_not_authenticated a self w r1 Hc Hr1)
        as (res' & Hr' & Ht & _); [by rewrite Hf|].
      rewrite Hr' in Hr. simplify_eq. rewrite Ht.
      eapply ensure_authenticated_no_post, Hr1.
    + rewrite (run_unconfigured a self w Hc) in Hr. by simplify_eq.
Qed.

(** Once the POST has been answered with a response whose body decodes to
    [payload], the call returns what the three lookups give, and [None]
    when they raise. *)
Lemma run_receipt_payload a self w res (path : string) (body : pyval)
    (response : Response) (payload : pyval) :
  run (create_income_receipt_with a self) w false = Some res →
  posts (trace res) = [(path, body, Returned response)] →
  json response = Returned payload →
  (returned res).1
  = match receipt_uuid_of payload with
    | Returned v => Returned v
    | Raised e => if is_Exception e then Returned PyNone else Raised e
    end.
Proof.
  intros Hr Hp Hj. run_cases Hr.
  all: repeat match goal with
    | E1 : json ?r = _, E2 : json ?r = _ |- _ => rewrite E1 in E2
    end; simplify_eq.
  all: repeat match goal with
    | E : receipt_uuid_of _ = _ |- _ => rewrite E
    | E : is_Exception _ = _ |- _ => rewrite E
    end; try reflexivity; congruence.
Qed.
Lemma receipt_uuid_of_dict (d : gmap string pyval) :
  receipt_uuid_of (PyDict d) = Returned (first_truthy_or_last d).
Proof.
  unfold receipt_uuid_of, first_truthy_or_last, py_or. cbn.
  destruct (truthy (dict_get d "approvedReceiptUuid")); [reflexivity|].
  destruct (truthy (dict_get d "receiptUuid")); reflexivity.
Qed.

(** C2, as amended: once the POST has been answered with a payload that
    is a dict, the identifier returned is the first truthy value among
    the keys approvedReceiptUuid, receiptUuid and receipt_uuid, in that
    order, and the value of the receipt_uuid lookup when none is truthy;
    for the empty payload the call returns [None], and raises nothing. *)
Theorem C2_first_truthy_identifier a self w res (path : string)
    (body : pyval) (response : Response) (d : gmap string pyval) :
  run (create_income_receipt_with a self) w false = Some res →
  posts (trace res) = [(path, body, Returned response)] →
  json response = Returned (PyDict d) →
  (returned res).1 = Returned (first_truthy_or_last d)
  ∧ (d = ∅ → (returned res).1 = Returned PyNone).
Proof.
  intros Hr Hp Hj.
  rewrite (run_receipt_payload _ _ _ _ _ _ _ _ Hr Hp Hj),
    receipt_uuid_of_dict.
  split; [reflexivity|]. intros ->. reflexivity.
Qed.

(** C10: once the POST has been answered with a payload that is a dict,
    a falsy value under approvedReceiptUuid makes the extraction go on to
    the later keys, a falsy value under receiptUuid as well makes it go
    on to receipt_uuid, and what is returned then is the value of the
    receipt_uuid lookup whatever it is, be it falsy and not [None]. *)
Theorem C10_falsy_values_fall_through a self w res (path : string)
    (body : pyval) (response : Response) (d : gmap string pyval) :
  run (create_income_receipt_with a self) w false = Some res →
  posts (trace res) = [(path, body, Returned response)] →
  json response = Returned (PyDict d) →
  (truthy (dict_get d "approvedReceiptUuid") = false →
   (returned res).1
   = Returned (py_or (dict_get d "receiptUuid") (dict_get d "receipt_uuid")))
  ∧ (truthy (dict_get d "approvedReceiptUuid") = false →
     truthy (dict_get d "receiptUuid") = false →
     (returned res).1 = Returned (dict_get d "receipt_uuid")).
Proof.
  intros Hr Hp Hj.
  rewrite (run_receipt_payload _ _ _ _ _ _ _ _ Hr Hp Hj),
    receipt_uuid_of_dict.
  unfold first_truthy_or_last, py_or.
  split; [intros ->|intros -> ->]; reflexivity.
Qed.

Lemma Decimal_value_mul (s1 s2 : bool) (c1 c2 : N) (e1 e2 : Z) :
  (Decimal_value (DecFinite (xorb s1 s2) (c1 * c2) (e1 + e2))
   == Decimal_value (DecFinite s1 c1 e1) * Decimal_value (DecFinite s2 c2 e2))%Q.
Proof.
  assert (inject_Z 10 ^ (e1 + e2) == inject_Z 10 ^ e1 * inject_Z 10 ^ e2)%Q
    as Hpow by (apply Qpower_plus; discriminate).
  unfold Decimal_value. rewrite N2Z.inj_mul, inject_Z_mult.
  destruct s1, s2; cbn [xorb]; rewrite Hpow; ring.
Qed.

(** The total of an item with finite amounts is finite, and stands for the
    product of what the two amounts stand for. *)
Lemma get_total_amount_exact (item : IncomeServiceItem.t) (total : Decimal) :
  get_total_amount item = Returned total →
  is_finite (IncomeServiceItem.amount item) = true →
  is_finite (IncomeServiceItem.quantity item) = true →
  is_finite total = true
  ∧ (Decimal_value total
     == Decimal_value (IncomeServiceItem.amount item)
        * Decimal_value (IncomeServiceItem.quantity item))%Q.
Proof.
  unfold get_total_amount.
  destruct (IncomeServiceItem.amount item) as [s1 c1 e1| |];
    destruct (IncomeServiceItem.quantity item) as [s2 c2 e2| |];
    try discriminate.
  intros [= <-] _ _. split; [reflexivity|]. apply Decimal_value_mul.
Qed.

Lemma run_build_request a self w (held : bool)
    (res : run_result (outcome IncomeRequest.t * NalogoService) W)
    (request : IncomeRequest.t) :
  run (build_request_with a self) w held = Some res →
  (returned res).1 = Returned request →
  ∃ r0, IncomeRequest_new r0 = Returned request
        ∧ request_fields a (clock_readings (trace res)) r0.
Proof.
  intros Hr Hq. unfold request_fields, item_of. run_cases Hr.
  all: eexists; (split; [eassumption|]); eexists _, _; cbn;
    repeat match goal with
      | |- _ ∧ _ => split
      | |- ∃ _, _ => eexists
      end; eauto.
Qed.

Lemma run_posted_request a self w res (path : string) (body : pyval)
    (r : outcome Response) :
  run (create_income_receipt_with a self) w false = Some res →
  posts (trace res) = [(path, body, r)] →
  path = "/income"
  ∧ ∃ r0 request,
      IncomeRequest_new r0 = Returned request
      ∧ model_dump request = Returned body
      ∧ request_fields a (clock_readings (trace res)) r0.
Proof.
  intros Hr Hp. unfold request_fields, item_of. run_cases Hr.
  all: (split; [reflexivity|]); eexists _, _;
    (split; [eassumption|]); (split; [eassumption|]); eexists _, _; cbn;
    repeat match goal with
      | |- _ ∧ _ => split
      | |- ∃ _, _ => eexists
      end; eauto.
Qed.

(** C7: when lines 64 to 82 of a call yield a request, and whenever a call
    posts, the request was built with these fields: as operation time the
    caller's time when given, and a reading of the clock otherwise; as
    request time a reading of the clock, taken after that; as services the
    one item built from the arguments; as total amount the text of the
    item's total; as client the caller's when given, and a new one
    otherwise; ACCOUNT as payment type; false as restriction override.  What
    is posted, to /income, is the dump of that request. *)
Theorem C7_request_fields a self w (held : bool)
    (res1 : run_result (outcome IncomeRequest.t * NalogoService) W)
    (request1 : IncomeRequest.t) res (path : string) (body : pyval)
    (r : outcome Response) :
  (run (build_request_with a self) w held = Some res1 →
   (returned res1).1 = Returned request1 →
   ∃ r0, IncomeRequest_new r0 = Returned request1
         ∧ request_fields a (clock_readings (trace res1)) r0)
  ∧ (run (create_income_receipt_with a self) w false = Some res →
     posts (trace res) = [(path, body, r)] →
     path = "/income"
     ∧ ∃ r0 request,
         IncomeRequest_new r0 = Returned request
         ∧ model_dump request = Returned body
         ∧ request_fields a (clock_readings (trace res)) r0).
Proof.
  split.
  - apply run_build_request.
  - apply run_posted_request.
Qed.

(** C6: when lines 64 to 82 of a call yield a request, the amount and the
    quantity of its item came from the caller's numbers through their text,
    [Decimal(str(x))]; the total of an item with finite amounts is the
    product of the two, as rational numbers, with nothing rounded; and for
    19.99 and 3.0, the item being as given to the library, the total is
    59.970, which is 5997/100. *)
Theorem C6_exact_decimal_total a self w (held : bool)
    (res : run_result (outcome IncomeRequest.t * NalogoService) W)
    (request : IncomeRequest.t) :
  run (build_request_with a self) w held = Some res →
  (returned res).1 = Returned request →
  ∃ amount' quantity' item total,
    Decimal_of_str (float_str (arg_amount a)) = Returned amount'
    ∧ Decimal_of_str (float_str (arg_quantity a)) = Returned quantity'
    ∧ IncomeServiceItem_new
        (IncomeServiceItem.Build (arg_item_name a) amount' quantity')
      = Returned item
    ∧ get_total_amount item = Returned total
    ∧ (is_finite (IncomeServiceItem.amount item) = true →
       is_finite (IncomeServiceItem.quantity item) = true →
       is_finite total = true
       ∧ (Decimal_value total
          == Decimal_value (IncomeServiceItem.amount item)
             * Decimal_value (IncomeServiceItem.quantity item))%Q)
    ∧ (float_str (arg_amount a) = "19.99" →
       float_str (arg_quantity a) = "3.0" →
       item = IncomeServiceItem.Build (arg_item_name a) amount' quantity' →
       total = DecFinite false 59970 (-3)
       ∧ Decimal_str total = "59.970"
       ∧ (Decimal_value total == 5997 # 100)%Q).
Proof.
  intros Hr Hq.
  destruct (run_build_request _ _ _ _ _ _ Hr Hq)
    as (r0 & _ & item & total & (a' & q' & Ha & Hq' & Hi & Ht) & _).
  exists a', q', item, total. repeat (split; [assumption|]). split.
  - apply get_total_amount_exact, Ht.
  - intros Ea Eq ->. rewrite Ea in Ha. rewrite Eq in Hq'.
    vm_compute in Ha, Hq'. injection Ha as <-. injection Hq' as <-.
    vm_compute in Ht. injection Ht as <-.
    split; [reflexivity|]. split; reflexivity.
Qed.
End Receipts.

(** ** Calls that share the lock *)

Lemma holders_insert (ts : list task) (i : nat) (t t' : task) :
  ts !! i = Some t →
  holders (<[i := t']> ts) + holds_lock t = holders ts + holds_lock t'.
Proof.
  unfold holders. revert i.
  induction ts as [|t0 ts IH]; intros [|i] Hi; simpl in *; try discriminate.
  - injection Hi as ->. lia.
  - specialize (IH i Hi). unfold fmap in IH. lia.
Qed.

Section Interleaving.
Context {W : Type} `{Collaborator W} `{Externals}.

Lemma lock_inv_started (self : NalogoService) (calls : list receipt_args)
    (w : W) :
  lock_inv (started self calls w).
Proof.
  split; cbn.
  - apply Forall_fmap, Forall_forall. intros a _. cbn.
    eapply wp_mono; [|apply wp_create_income_receipt].
    intros rs ph [_ Hph]. exact Hph.
  - unfold holders. induction calls as [|a calls IH]; [reflexivity|].
    cbn. exact IH.
Qed.

Lemma lock_inv_step (s s' : system W) :
  lock_inv s → step s s' → lock_inv s'.
Proof.
  intros [Hwp Hn] Hstep.
  destruct Hstep as [ts w held i ph X c k r w' Hi Ha|ts w i ph k Hi
                    |ts w i ph k Hi|ts w held i ph r k Hi|ts w held w'];
    unfold lock_inv; cbn [tasks sys_locked sys_world] in *.
  - pose proof (Forall_lookup_1 _ _ _ _ Hwp Hi) as [_ Hk]. split.
    + apply Forall_insert; [exact Hwp|]. apply Hk.
    + pose proof (holders_insert ts i _ (Task (k r) ph) Hi) as Hh.
      unfold holds_lock in Hh. cbn [lock_phase inside] in Hh.
      destruct held, (inside ph); lia.
  - pose proof (Forall_lookup_1 _ _ _ _ Hwp Hi) as Ht. cbn in Ht.
    destruct Ht as [-> Hk]. split.
    + apply Forall_insert; [exact Hwp|]. exact Hk.
    + pose proof (holders_insert ts i _ (Task k Inside) Hi) as Hh.
      unfold holds_lock in Hh. cbn [lock_phase inside] in Hh. lia.
  - pose proof (Forall_lookup_1 _ _ _ _ Hwp Hi) as Ht. cbn in Ht.
    destruct Ht as [-> Hk]. split.
    + apply Forall_insert; [exact Hwp|]. exact Hk.
    + pose proof (holders_insert ts i _ (Task k After) Hi) as Hh.
      unfold holds_lock in Hh. cbn [lock_phase inside] in Hh. lia.
  - pose proof (Forall_lookup_1 _ _ _ _ Hwp Hi) as Hk. split.
    + apply Forall_insert; [exact Hwp|]. exact Hk.
    + pose proof (holders_insert ts i _ (Task k ph) Hi) as Hh.
      unfold holds_lock in Hh. cbn [lock_phase inside] in Hh.
      destruct held, (inside ph); lia.
  - split; assumption.
Qed.

Lemma lock_inv_reachable (s s' : system W) :
  lock_inv s → rtc step s s' → lock_inv s'.
Proof.
  intros Hs Hr. induction Hr as [|s1 s2 s3 Hstep _ IH]; [exact Hs|].
  apply IH. eapply lock_inv_step; eassumption.
Qed.

(** C9: however the calls started together on one service are interleaved,
    at most one of them stands between taking the authentication lock and
    giving it back, and the lock is held exactly then; a call about to look
    up the token, to acquire one or to authenticate stands there, so the
    handshakes do not overlap; a call about to POST has taken the lock and
    given it back; and a call that has ended, with a value or with an
    exception, is not holding the lock. *)
Theorem C9_one_handshake_at_a_time (self : NalogoService)
    (calls : list receipt_args) (w : W) (s : system W) :
  rtc step (started self calls w) s →
  (holders (tasks s) ≤ 1)%nat
  ∧ (sys_locked s = true ↔ holders (tasks s) = 1)
  ∧ (∀ i t X (c : call X) k,
       tasks s !! i = Some t → code t = Call c k →
       call_phase c (lock_phase t))
  ∧ (∀ i t, tasks s !! i = Some t → finished (code t) = true →
            lock_phase t ≠ Inside).
Proof.
  intros Hr.
  destruct (lock_inv_reachable _ _ (lock_inv_started self calls w) Hr)
    as [Hwp Hn].
  split; [|split; [|split]].
  - rewrite Hn. destruct (sys_locked s); lia.
  - rewrite Hn. destruct (sys_locked s); split; try done.
  - intros i t X c k Hi Hc.
    pose proof (Forall_lookup_1 _ _ _ _ Hwp Hi) as Ht. cbv beta in Ht.
    rewrite Hc in Ht. destruct Ht as [Hph _]. exact Hph.
  - intros i t Hi Hf.
    pose proof (Forall_lookup_1 _ _ _ _ Hwp Hi) as Ht. cbv beta in Ht.
    destruct (code t); try discriminate. exact Ht.
Qed.
End Interleaving.

(** ** The methods on the example world *)

(** C1, where the code departs from it: the token lookup of line 33 stands
    outside the [try] of line 37, and the call of line 60 outside the [try]
    of line 63.  When the lookup raises an [Exception], the exception leaves
    [_ensure_authenticated], and leaves [create_income_receipt] as well. *)
Theorem C1_token_lookup_exception_escapes :
  is_Exception ConnectionError = true
  ∧ run (_ensure_authenticated shop_service) lookup_failing false
    = Some (RunResult (Raised ConnectionError, shop_service) lookup_failing
              false
              [EAcquire; ECall GetToken (Raised ConnectionError); ERelease])
  ∧ run (create_income_receipt_with consulting shop_service) lookup_failing
      false
    = Some (RunResult (Raised ConnectionError, shop_service) lookup_failing
              false
              [EAcquire; ECall GetToken (Raised ConnectionError); ERelease]).
Proof. repeat split; vm_compute; reflexivity. Qed.

(** C2 as the spec words it fails: with an empty string under
    approvedReceiptUuid and an identifier under receiptUuid, the first value
    that is not [None] is the empty string, and the call returns the
    identifier. *)
Lemma C2_first_non_absent_refuted :
  ∃ res path body response,
    run (create_income_receipt_with consulting shop_service)
      (responding (Returned token) (PyDict empty_first_key)) false = Some res
    ∧ posts (trace res) = [(path, body, Returned response)]
    ∧ json response = Returned (PyDict empty_first_key)
    ∧ first_non_absent empty_first_key = PyStr ""
    ∧ (returned res).1 = Returned (PyStr "xyz")
    ∧ (returned res).1 ≠ Returned (first_non_absent empty_first_key).
Proof.
  eexists _, _, _, _.
  split; [vm_compute; reflexivity|].
  split; [vm_compute; reflexivity|].
  split; [vm_compute; reflexivity|].
  split; [vm_compute; reflexivity|].
  split; [vm_compute; reflexivity|].
  vm_compute. discriminate.
Qed.

Lemma C2_first_truthy_identifier_witness :
  ∃ res,
    run (create_income_receipt_with consulting shop_service)
      (responding (Returned token) (PyDict empty_first_key)) false = Some res
    ∧ (returned res).1 = Returned (PyStr "xyz").
Proof.
  eexists. split; [vm_compute; reflexivity|].
  refine (proj1 (C2_first_truthy_identifier consulting shop_service
                   (responding (Returned token) (PyDict empty_first_key)) _
                   "/income" _ _ empty_first_key _ _ _));
    vm_compute; reflexivity.
Defined.

Lemma C3_configured_iff_credentials_witness :
  configured (constructed None (Some "secret")) = false
  ∧ run (create_income_receipt_with consulting
           (constructed None (Some "secret"))) lookup_failing false
    = Some (RunResult (Returned PyNone, constructed None (Some "secret"))
              lookup_failing false []).
Proof.
  split; [reflexivity|].
  exact (proj1 (proj2 (C3_configured_iff_credentials None (Some "secret"))
                  eq_refl [] consulting lookup_failing)).
Defined.

Lemma C4_one_post_on_success_witness :
  ∃ res,
    run (create_income_receipt_with consulting shop_service)
      (responding (Returned PyNone) (PyDict empty_first_key)) false = Some res
    ∧ receipt_created (trace res) = true
    ∧ List.length (posts (trace res)) = 1.
Proof.
  eexists. split; [vm_compute; reflexivity|].
  split; [vm_compute; reflexivity|].
  refine (proj1 (proj2 (C4_one_post_on_success_none_on_failed_precondition
                          consulting shop_service
                          (responding (Returned PyNone)
                             (PyDict empty_first_key)) _ _)) _);
    vm_compute; reflexivity.
Defined.

Lemma C5_token_held_no_exchange_witness :
  run (_ensure_authenticated (constructed (Some " 123456789012 ")
                                (Some "secret")))
    (responding (Returned token) (PyDict ∅)) false
  = Some (RunResult
            (Returned true,
             constructed (Some " 123456789012 ") (Some "secret"))
            (responding (Returned token) (PyDict ∅)) false
            [EAcquire; ECall GetToken (Returned token); ERelease]).
Proof.
  apply C5_token_held_no_exchange; reflexivity.
Defined.

Lemma C10_falsy_values_fall_through_witness :
  ∃ res,
    run (create_income_receipt_with consulting shop_service)
      (responding (Returned token) (PyDict empty_everywhere)) false = Some res
    ∧ dict_get empty_everywhere "receipt_uuid" = PyStr ""
    ∧ (returned res).1 = Returned (PyStr "").
Proof.
  eexists. split; [vm_compute; reflexivity|].
  split; [vm_compute; reflexivity|].
  refine (proj2 (C10_falsy_values_fall_through consulting shop_service
                   (responding (Returned token) (PyDict empty_everywhere)) _
                   "/income" _ _ empty_everywhere _ _ _) _ _);
    vm_compute; reflexivity.
Defined.

Lemma run_subscription :
  run (build_request_with subscription shop_service)
    (responding (Returned token) (PyDict ∅)) false
  = Some subscription_built.
Proof. vm_compute. reflexivity. Qed.

Lemma C6_exact_decimal_total_witness :
  ∃ total : Decimal,
    total = DecFinite false 59970 (-3)
    ∧ Decimal_str total = "59.970"
    ∧ (Decimal_value total == 5997 # 100)%Q.
Proof.
  destruct (C6_exact_decimal_total subscription shop_service
              (responding (Returned token) (PyDict ∅)) false _ _
              run_subscription eq_refl)
    as (a' & q' & item & total & Ha & Hq & Hi & Ht & _ & Hparticular).
  exists total. injection Hi as <-.
  exact (Hparticular eq_refl eq_refl eq_refl).
Defined.

Lemma C7_request_fields_witness :
  ∃ r0 : IncomeRequest.t,
    request_fields subscription [AtomDateTimeOf (Datetime 1700000000)] r0
    ∧ IncomeRequest.operation_time r0 = AtomDateTimeOf (Datetime 1699990000)
    ∧ IncomeRequest.request_time r0 = AtomDateTimeOf (Datetime 1700000000)
    ∧ IncomeRequest.total_amount r0 = "59.970".
Proof.
  destruct (proj1 (C7_request_fields subscription shop_service
                     (responding (Returned token) (PyDict ∅)) false _ _
                     (RunResult (Returned PyNone, shop_service)
                        (responding (Returned token) (PyDict ∅)) false [])
                     "" PyNone (Raised ConnectionError))
              run_subscription eq_refl) as (r0 & Hnew & Hfields).
  exists r0. split; [exact Hfields|].
  injection Hnew as ->. repeat split; reflexivity.
Defined.

Lemma reach_first_holds : rtc step two_calls first_holds.
Proof.
  apply rtc_once.
  apply (step_acquire (tasks two_calls) (sys_world two_calls) 0 Before
           after_acquire).
  vm_compute. reflexivity.
Qed.

Lemma C9_one_handshake_at_a_time_witness :
  (holders (tasks first_holds) ≤ 1)%nat
  ∧ (sys_locked first_holds = true ↔ holders (tasks first_holds) = 1).
Proof.
  pose proof (C9_one_handshake_at_a_time shop_service
                [consulting; subscription]
                (responding (Returned PyNone) (PyDict ∅)) first_holds
                reach_first_holds) as (Hle & Hiff & _).
  split; [exact Hle|exact Hiff].
Defined.

(** ** More on the handshake and on exceptions *)

Lemma receipt_uuid_of_not_dict (payload : pyval) :
  is_dict payload = false → receipt_uuid_of payload = Raised AttributeError.
Proof. destruct payload; try reflexivity. discriminate. Qed.

Lemma receipt_uuid_of_from_dict (payload v : pyval) :
  receipt_uuid_of payload = Returned v →
  v ≠ PyNone →
  ∃ d key, payload = PyDict d ∧ key ∈ receipt_keys ∧ d !! key = Some v.
Proof.
  intros Hv Hne. destruct payload as [| | | | | |d]; try discriminate.
  exists d. unfold receipt_uuid_of in Hv. cbn in Hv.
  assert (∀ key, dict_get d key = v → d !! key = Some v) as Hget.
  { intros key Hk. unfold dict_get in Hk.
    destruct (d !! key) as [x|]; cbn in Hk; congruence. }
  unfold receipt_keys.
  destruct (truthy (dict_get d "approvedReceiptUuid")).
  { injection Hv as Hv. exists "approvedReceiptUuid".
    split; [reflexivity|]. split; [set_solver|auto]. }
  destruct (truthy (dict_get d "receiptUuid")).
  { injection Hv as Hv. exists "receiptUuid".
    split; [reflexivity|]. split; [set_solver|auto]. }
  injection Hv as Hv. exists "receipt_uuid".
  split; [reflexivity|]. split; [set_solver|auto].
Qed.


Section Handshake.
Context {W : Type} `{Collaborator W} `{Externals}.
#[local] Arguments Decimal_of_str : simpl never.
#[local] Arguments Decimal_str : simpl never.
#[local] Arguments get_total_amount : simpl never.
#[local] Arguments receipt_uuid_of : simpl never.
#[local] Arguments truthy : simpl never.
#[local] Arguments is_Exception : simpl never.

Implicit Types (a : receipt_args) (self : NalogoService) (w : W).

(** X1: whatever the collaborator answers, the handshake calls of a run of
    [_ensure_authenticated] and its result are one of six: no client, no
    call, [False]; a token lookup that raises, and the exception leaves; a
    token found, [True]; an acquisition, with the stored credentials, that
    raises, [False] for an [Exception]; an authentication, with the token
    just acquired, that raises, [False] for an [Exception]; an exchange
    that goes through, [True].  Nothing is called twice. *)
Theorem X1_ensure_authenticated_handshake self w
    (r1 : run_result (outcome bool * NalogoService) W) :
  run (_ensure_authenticated self) w false = Some r1 →
  handshake_result self (handshake (trace r1)) (returned r1).1.
Proof.
  intros Hr. run_cases Hr.
  all: try (destruct (_client self) eqn:Hc; [discriminate|]).
  all: try (econstructor; eassumption).
  all: match goal with
       | E : is_Exception ?e = _ |- handshake_result _ _ ?r =>
           replace r with (@absorbed bool e false)
             by (unfold absorbed; rewrite E; reflexivity)
       end; econstructor; eassumption.
Qed.
(** X2: a call of [create_income_receipt] posts only after a handshake that
    ended in [True]: the token lookup found a token, or a token was acquired
    with the stored credentials and authenticated. *)
Theorem X2_post_only_after_handshake a self w res :
  run (create_income_receipt_with a self) w false = Some res →
  posts (trace res) ≠ [] →
  handshake_result self (handshake (trace res)) (Returned true).
Proof.
  intros Hr Hp. run_cases Hr.
  all: try done.
  all: econstructor; eassumption.
Qed.

(** X3: an exception that is no instance of [Exception], raised by any
    call to the collaborator, is absorbed by neither handler: both
    [create_income_receipt] and [_ensure_authenticated] end in it. *)
Theorem X3_non_Exception_never_absorbed a self w res
    (r1 : run_result (outcome bool * NalogoService) W) (e : exn) :
  is_Exception e = false →
  (run (create_income_receipt_with a self) w false = Some res →
   e ∈ raised (trace res) → (returned res).1 = Raised e)
  ∧ (run (_ensure_authenticated self) w false = Some r1 →
     e ∈ raised (trace r1) → (returned r1).1 = Raised e).
Proof.
  intros He. split; intros Hr Hin.
  - run_cases Hr.
    all: repeat (rewrite ?elem_of_cons, ?elem_of_nil in Hin).
    all: try tauto.
    all: destruct Hin as [->|Hin]; try tauto; try congruence.
  - run_cases Hr.
    all: repeat (rewrite ?elem_of_cons, ?elem_of_nil in Hin).
    all: try tauto.
    all: destruct Hin as [->|Hin]; try tauto; try congruence.
Qed.

(** X4: when an exception leaves [create_income_receipt] or
    [_ensure_authenticated], either the handshake consisted of the token
    lookup alone and it is the exception the lookup raised, or it is no
    instance of [Exception]. *)
Theorem X4_only_lookup_or_non_Exception_escapes a self w res
    (r1 : run_result (outcome bool * NalogoService) W) (e : exn) :
  (run (create_income_receipt_with a self) w false = Some res →
   (returned res).1 = Raised e →
   handshake (trace res) = [LookedUp (Raised e)] ∨ is_Exception e = false)
  ∧ (run (_ensure_authenticated self) w false = Some r1 →
     (returned r1).1 = Raised e →
     handshake (trace r1) = [LookedUp (Raised e)] ∨ is_Exception e = false).
Proof.
  split; intros Hr He; run_cases Hr; auto.
Qed.
(** X5: when the POST is answered and the body decodes to something that
    is not a dict (a list, a string, a number, null), the call returns
    [None] and does not log that a receipt was created. *)
Theorem X5_payload_not_a_dict a self w res (path : string) (body : pyval)
    (response : Response) (payload : pyval) :
  run (create_income_receipt_with a self) w false = Some res →
  posts (trace res) = [(path, body, Returned response)] →
  json response = Returned payload →
  is_dict payload = false →
  (returned res).1 = Returned PyNone
  ∧ receipt_created (trace res) = false.
Proof.
  intros Hr Hp Hj Hd. split.
  - rewrite (run_receipt_payload _ _ _ _ _ _ _ _ Hr Hp Hj).
    rewrite (receipt_uuid_of_not_dict _ Hd). reflexivity.
  - pose proof (receipt_uuid_of_not_dict _ Hd) as Hu.
    run_cases Hr; try reflexivity.
    all: repeat match goal with
      | E1 : json ?r = _, E2 : json ?r = _ |- _ => rewrite E1 in E2
      end; simplify_eq; congruence.
Qed.

(** X6: when the POST raises, or its response fails to decode, the call
    returns [None] if what was raised is an [Exception], and ends in the
    exception otherwise. *)
Theorem X6_failed_post_or_decoding a self w res (path : string)
    (body : pyval) (r : outcome Response) (e : exn) :
  run (create_income_receipt_with a self) w false = Some res →
  posts (trace res) = [(path, body, r)] →
  r = Raised e ∨ (∃ response, r = Returned response ∧ json response = Raised e) →
  (returned res).1 = absorbed e PyNone.
Proof.
  intros Hr Hp Hf. unfold absorbed. run_cases Hr.
  all: destruct Hf as [Hf|(response & Hf & Hj)]; simplify_eq.
  all: repeat match goal with
      | E1 : json ?r = _, E2 : json ?r = _ |- _ => rewrite E1 in E2
      end; simplify_eq.
  all: repeat match goal with
      | E : is_Exception _ = _ |- _ => rewrite E
      end; try reflexivity; congruence.
Qed.

(** X7: whatever [create_income_receipt] returns other than [None] is the
    value stored under approvedReceiptUuid, receiptUuid or receipt_uuid in
    the dict the one answered POST decoded to. *)
Theorem X7_identifier_comes_from_response a self w res (v : pyval) :
  run (create_income_receipt_with a self) w false = Some res →
  (returned res).1 = Returned v →
  v ≠ PyNone →
  ∃ path body response d key,
    posts (trace res) = [(path, body, Returned response)]
    ∧ json response = Returned (PyDict d)
    ∧ key ∈ receipt_keys
    ∧ d !! key = Some v.
Proof.
  intros Hr Hv Hne. run_cases Hr; try done.
  all: try (exfalso; apply Hne; reflexivity).
  all: match goal with
       | E : receipt_uuid_of _ = Returned _ |- _ =>
           destruct (receipt_uuid_of_from_dict _ _ E Hne)
             as (dict & key & -> & Hk & Hd)
       end.
  all: eexists _, _, _, dict, key; repeat split; eauto.
Qed.
End Handshake.

Lemma X1_ensure_authenticated_handshake_witness :
  ∃ r1,
    run (_ensure_authenticated shop_service)
      (responding (Returned PyNone) (PyDict ∅)) false = Some r1
    ∧ handshake (trace r1)
      = [LookedUp (Returned PyNone);
         Acquired (Some "123456789012") (Some "secret")
           (Returned (PyStr "token-json"));
         Authenticated (PyStr "token-json") (Returned PyNone)]
    ∧ handshake_result shop_service (handshake (trace r1)) (returned r1).1.
Proof.
  eexists. split; [vm_compute; reflexivity|]. split; [reflexivity|].
  refine (X1_ensure_authenticated_handshake shop_service
            (responding (Returned PyNone) (PyDict ∅)) _ _).
  vm_compute. reflexivity.
Defined.

Lemma X2_post_only_after_handshake_witness :
  ∃ res,
    run (create_income_receipt_with consulting shop_service)
      (responding (Returned token) (PyDict empty_first_key)) false = Some res
    ∧ handshake_result shop_service (handshake (trace res)) (Returned true).
Proof.
  eexists. split; [vm_compute; reflexivity|].
  refine (X2_post_only_after_handshake consulting shop_service
            (responding (Returned token) (PyDict empty_first_key)) _ _ _).
  - vm_compute. reflexivity.
  - vm_compute. discriminate.
Defined.

Lemma X3_non_Exception_never_absorbed_witness :
  ∃ res,
    run (create_income_receipt_with consulting shop_service)
      (post_raising CancelledError) false = Some res
    ∧ (returned res).1 = Raised CancelledError.
Proof.
  eexists. split; [vm_compute; reflexivity|].
  refine (proj1 (X3_non_Exception_never_absorbed consulting shop_service
                   (post_raising CancelledError) _
                   (RunResult (Returned false, shop_service)
                      (post_raising CancelledError) false [])
                   CancelledError eq_refl) _ _).
  - vm_compute. reflexivity.
  - vm_compute. apply list_elem_of_singleton. reflexivity.
Defined.

Lemma X4_only_lookup_or_non_Exception_escapes_witness :
  ∃ res,
    run (create_income_receipt_with consulting shop_service)
      lookup_failing false = Some res
    ∧ (handshake (trace res) = [LookedUp (Raised ConnectionError)]
       ∨ is_Exception ConnectionError = false).
Proof.
  eexists. split; [vm_compute; reflexivity|].
  refine (proj1 (X4_only_lookup_or_non_Exception_escapes consulting
                   shop_service lookup_failing _
                   (RunResult (Returned false, shop_service)
                      lookup_failing false [])
                   ConnectionError) _ _).
  - vm_compute. reflexivity.
  - reflexivity.
Defined.

Lemma X5_payload_not_a_dict_witness :
  ∃ res,
    run (create_income_receipt_with consulting shop_service)
      (responding (Returned token) (PyList [PyStr "abc-123"])) false
    = Some res
    ∧ (returned res).1 = Returned PyNone
    ∧ receipt_created (trace res) = false.
Proof.
  eexists. split; [vm_compute; reflexivity|].
  refine (X5_payload_not_a_dict consulting shop_service
            (responding (Returned token) (PyList [PyStr "abc-123"])) _
            "/income" _ _ (PyList [PyStr "abc-123"]) _ _ _ _);
    vm_compute; reflexivity.
Defined.

Lemma X6_failed_post_or_decoding_witness :
  ∃ res,
    run (create_income_receipt_with consulting shop_service)
      (post_raising ConnectionError) false = Some res
    ∧ (returned res).1 = absorbed ConnectionError PyNone.
Proof.
  eexists. split; [vm_compute; reflexivity|].
  refine (X6_failed_post_or_decoding consulting shop_service
            (post_raising ConnectionError) _ "/income" _
            (Raised ConnectionError) ConnectionError _ _ _).
  - vm_compute. reflexivity.
  - vm_compute. reflexivity.
  - left. reflexivity.
Defined.

Lemma X7_identifier_comes_from_response_witness :
  ∃ res,
    run (create_income_receipt_with consulting shop_service)
      (responding (Returned token) (PyDict empty_first_key)) false = Some res
    ∧ ∃ path body response d key,
        posts (trace res) = [(path, body, Returned response)]
        ∧ json response = Returned (PyDict d)
        ∧ key ∈ receipt_keys
        ∧ d !! key = Some (PyStr "xyz").
Proof.
  eexists. split; [vm_compute; reflexivity|].
  refine (X7_identifier_comes_from_response consulting shop_service
            (responding (Returned token) (PyDict empty_first_key)) _
            (PyStr "xyz") _ _ _).
  - vm_compute. reflexivity.
  - vm_compute. reflexivity.
  - discriminate.
Defined.

(** ** The construction *)

Local Open Scope list_scope.

Lemma lstrip_chars_head (l : list ascii) (c : ascii) (r : list ascii) :
  lstrip_chars l = c :: r → is_space c = false.
Proof.
  induction l as [|x l IH]; cbn; [discriminate|].
  destruct (is_space x) eqn:Hx; [exact IH|].
  intros [= <- <-]. exact Hx.
Qed.

Lemma lstrip_chars_snoc (l : list ascii) (c : ascii) :
  is_space c = false → lstrip_chars (l ++ [c]) = lstrip_chars l ++ [c].
Proof.
  intros Hc. induction l as [|x l IH]; cbn.
  - rewrite Hc. reflexivity.
  - destruct (is_space x); [exact IH|reflexivity].
Qed.

Lemma lstrip_chars_fixed (l : list ascii) :
  (∀ c, head l = Some c → is_space c = false) → lstrip_chars l = l.
Proof.
  destruct l as [|x l]; [reflexivity|]. intros Hh. cbn.
  rewrite (Hh x eq_refl). reflexivity.
Qed.

Lemma lstrip_chars_all_space (l : list ascii) :
  Forall (fun c => is_space c = true) l → lstrip_chars l = [].
Proof.
  induction 1 as [|x l Hx _ IH]; [reflexivity|]. cbn. rewrite Hx. exact IH.
Qed.

(** The characters [strip] leaves. *)
Lemma py_strip_chars (s : string) :
  list_ascii_of_string (py_strip s)
  = rev (lstrip_chars (rev (lstrip_chars (list_ascii_of_string s)))).
Proof. unfold py_strip. apply list_ascii_of_string_of_list_ascii. Qed.

Lemma py_strip_no_space_at_ends (s : string) : no_space_at_ends (py_strip s).
Proof.
  unfold no_space_at_ends. rewrite py_strip_chars.
  destruct (lstrip_chars (list_ascii_of_string s)) as [|h t] eqn:Hm.
  { cbn. split; intros c [=]. }
  pose proof (lstrip_chars_head _ _ _ Hm) as Hh.
  change (rev (h :: t)) with (rev t ++ [h]).
  rewrite (lstrip_chars_snoc _ _ Hh), rev_app_distr. cbn. split.
  - intros c [= <-]. exact Hh.
  - intros c Hc. rewrite last_cons in Hc.
    destruct (lstrip_chars (rev t)) as [|x r] eqn:Hr.
    + cbn in Hc. injection Hc as <-. exact Hh.
    + rewrite last_lookup in Hc. 
      change (rev (x :: r)) with (rev r ++ [x]) in Hc.
      rewrite length_app in Hc. cbn in Hc.
      replace (pred (length (rev r) + 1)) with (length (rev r) + 0)%nat in Hc by lia.
      rewrite lookup_app_r in Hc by lia.
      replace (length (rev r) + 0 - length (rev r))%nat with 0%nat in Hc by lia.
      cbn in Hc. injection Hc as <-.
      exact (lstrip_chars_head _ _ _ Hr).
Qed.

Lemma head_rev {A : Type} (l : list A) : head (rev l) = last l.
Proof.
  induction l as [|x l _] using rev_ind; [reflexivity|].
  rewrite rev_app_distr, last_snoc. reflexivity.
Qed.

Lemma py_strip_fixed (s : string) : no_space_at_ends s → py_strip s = s.
Proof.
  intros [Hh Hl]. unfold py_strip.
  rewrite (lstrip_chars_fixed _ Hh).
  rewrite lstrip_chars_fixed, rev_involutive.
  - apply string_of_list_ascii_of_string.
  - intros c. rewrite head_rev. apply Hl.
Qed.

Lemma py_strip_all_space (s : string) : all_space s → py_strip s = "".
Proof.
  intros Hs. unfold py_strip.
  rewrite (lstrip_chars_all_space _ Hs). reflexivity.
Qed.

Lemma stored_inn_stripped (i p : option string) (s : string) :
  inn (constructed i p) = Some s → ∃ x, s = py_strip x.
Proof.
  unfold constructed, __init__. cbn [fst inn]. intros Hs.
  destruct (str_truthy i); [|discriminate].
  destruct i as [x|]; [|discriminate]. injection Hs as <-. eauto.
Qed.

(** X8: the identifier a construction stores has no whitespace at either
    end and is left as it is by another [strip]; on a configured service it
    is not empty; the secret is stored as given, untrimmed. *)
Theorem X8_stored_inn_is_trimmed (i p : option string) (s : string) :
  inn (constructed i p) = Some s →
  no_space_at_ends s
  ∧ py_strip s = s
  ∧ (configured (constructed i p) = true → s ≠ "")
  ∧ password (constructed i p) = p.
Proof.
  intros Hs. destruct (stored_inn_stripped i p s Hs) as [x ->].
  split; [apply py_strip_no_space_at_ends|].
  split; [apply py_strip_fixed, py_strip_no_space_at_ends|].
  split; [|reflexivity].
  revert Hs. unfold constructed, __init__. cbn [fst inn configured].
  intros ->. cbn. intros Hc Hx. rewrite Hx in Hc. discriminate.
Qed.

(** X9: an identifier made of whitespace only is stored as the empty
    string, not as [None]; the service is then not configured, has no
    client, and the construction logs the warning. *)
Theorem X9_blank_inn_disables (i : string) (p : option string) :
  i ≠ "" → all_space i →
  __init__ (Some i) p
  = ({| inn := Some ""; password := p; configured := false;
        _client := None |},
     [LogRecord WARNING
        "Nalogo credentials are missing. Receipt sending disabled." []]).
Proof.
  intros Hne Hs. unfold __init__.
  assert (str_truthy (Some i) = true) as ->.
  { apply str_truthy_Some. eauto. }
  cbn. rewrite (py_strip_all_space _ Hs). reflexivity.
Qed.

Lemma constructed_configured (i p : option string) :
  configured (constructed i p) = true →
  ∃ x, constructed i p
       = {| inn := Some (py_strip x); password := p; configured := true;
            _client := Some ClientObject |}
       ∧ str_truthy (Some (py_strip x)) = true
       ∧ str_truthy p = true.
Proof.
  unfold constructed, __init__. cbn [fst configured].
  destruct (str_truthy i); [|discriminate].
  destruct i as [x|]; [|discriminate]. cbn [fmap option_fmap option_map].
  intros Hc. exists x. rewrite Hc.
  apply andb_true_iff in Hc as [Ht Hp]. auto.
Qed.

(** X10: constructing a service from the credentials a configured service
    stores gives that same service, and logs nothing. *)
Theorem X10_construction_from_stored_credentials (i p : option string) :
  configured (constructed i p) = true →
  __init__ (inn (constructed i p)) (password (constructed i p))
  = (constructed i p, []).
Proof.
  intros Hc. destruct (constructed_configured i p Hc) as (x & -> & Ht & Hp).
  cbn [inn password]. unfold __init__. rewrite Ht.
  cbn [fmap option_fmap option_map].
  rewrite (py_strip_fixed _ (py_strip_no_space_at_ends x)), Ht, Hp.
  reflexivity.
Qed.

Lemma X8_stored_inn_is_trimmed_witness :
  no_space_at_ends "123456789012"
  ∧ py_strip "123456789012" = "123456789012"
  ∧ (configured (constructed (Some " 123456789012 ") (Some "secret")) = true →
     "123456789012" ≠ "")
  ∧ password (constructed (Some " 123456789012 ") (Some "secret"))
    = Some "secret".
Proof.
  exact (X8_stored_inn_is_trimmed (Some " 123456789012 ") (Some "secret")
           "123456789012" eq_refl).
Defined.

Lemma X9_blank_inn_disables_witness :
  __init__ (Some "   ") (Some "secret")
  = ({| inn := Some ""; password := Some "secret"; configured := false;
        _client := None |},
     [LogRecord WARNING
        "Nalogo credentials are missing. Receipt sending disabled." []]).
Proof.
  apply X9_blank_inn_disables.
  - discriminate.
  - unfold all_space. cbn. repeat constructor.
Defined.

Lemma X10_construction_from_stored_credentials_witness :
  __init__ (Some "123456789012") (Some "secret") = (shop_service, []).
Proof.
  exact (X10_construction_from_stored_credentials
           (Some " 123456789012 ") (Some "secret") eq_refl).
Defined.

(** ** Progress of calls that share the lock *)

Lemma holders_lookup (ts : list task) (i : nat) (t : task) :
  ts !! i = Some t → (holds_lock t ≤ holders ts)%nat.
Proof.
  unfold holders. revert i.
  induction ts as [|t0 ts IH]; intros [|i] Hi; simpl in *; try discriminate.
  - injection Hi as ->. lia.
  - specialize (IH i Hi). unfold fmap in IH. lia.
Qed.

Lemma holders_pos (ts : list task) :
  (0 < holders ts)%nat →
  ∃ i t, ts !! i = Some t ∧ lock_phase t = Inside.
Proof.
  unfold holders. induction ts as [|t0 ts IH]; simpl; [lia|].
  intros Hpos. unfold fmap in *.
  destruct (lock_phase t0) eqn:Hph; [|exists 0%nat, t0; auto|].
  all: destruct IH as (i & t & Hi & Ht);
    [unfold holds_lock at 1 in Hpos; rewrite Hph in Hpos; simpl in Hpos; lia
    |exists (S i), t; auto].
Qed.

Section Progress.
Context {W : Type} `{Collaborator W} `{Externals}.

Lemma move_step (s s' : system W) (i : nat) : move s i s' → step s s'.
Proof. destruct 1; econstructor; eassumption. Qed.

(** A task that stands inside can always move. *)
Lemma holder_moves (s : system W) (i : nat) (t : task) :
  lock_inv s → tasks s !! i = Some t → lock_phase t = Inside →
  ∃ s', move s i s'.
Proof.
  intros [Hwp Hn] Hi Hph.
  pose proof (Forall_lookup_1 _ _ _ _ Hwp Hi) as Ht. cbv beta in Ht.
  assert (sys_locked s = true) as Hl.
  { pose proof (holders_lookup _ _ _ Hi) as Hle.
    unfold holds_lock in Hle. rewrite Hph in Hle. cbn in Hle.
    destruct (sys_locked s); [reflexivity|lia]. }
  destruct s as [ts w held]. cbn in *. subst held.
  destruct t as [p ph]. cbn in *. subst ph.
  destruct p as [v|X c k|k|k|r k]; cbn in Ht.
  - done.
  - destruct (answer c w) as [r w'] eqn:Ha. eexists. eapply move_call; eauto.
  - destruct Ht as [[=] _].
  - eexists. eapply move_release; eauto.
  - eexists. eapply move_log; eauto.
Qed.

(** X11: calls started together on one service never block one another
    for good.  In every state they can reach, the call that holds the lock
    can make its next move; when the lock is free every call that has not
    ended can make its next move; so as long as some call has not ended,
    some call can move. *)
Theorem X11_no_deadlock (self : NalogoService) (calls : list receipt_args)
    (w : W) (s : system W) :
  rtc step (started self calls w) s →
  (∀ i t, tasks s !! i = Some t → lock_phase t = Inside →
          ∃ s', move s i s')
  ∧ (sys_locked s = false →
     ∀ i t, tasks s !! i = Some t → finished (code t) = false →
            ∃ s', move s i s')
  ∧ ((∃ i t, tasks s !! i = Some t ∧ finished (code t) = false) →
     ∃ i s', move s i s').
Proof.
  intros Hr.
  pose proof (lock_inv_reachable _ _ (lock_inv_started self calls w) Hr)
    as Hinv.
  assert (sys_locked s = false →
          ∀ i t, tasks s !! i = Some t → finished (code t) = false →
                 ∃ s', move s i s') as Hfree.
  { intros Hl i t Hi Hf. destruct Hinv as [Hwp Hn].
    pose proof (Forall_lookup_1 _ _ _ _ Hwp Hi) as Ht. cbv beta in Ht.
    pose proof (holders_lookup _ _ _ Hi) as Hle. rewrite Hn, Hl in Hle.
    destruct s as [ts w0 held]. cbn in *. subst held.
    destruct t as [p ph]. cbn in *.
    destruct p as [v|X c k|k|k|r k]; cbn in Ht.
    - discriminate.
    - destruct (answer c w0) as [r w'] eqn:Ha.
      eexists. eapply move_call; eauto.
    - eexists. eapply move_acquire; eauto.
    - destruct Ht as [-> _]. unfold holds_lock in Hle. cbn in Hle. lia.
    - eexists. eapply move_log; eauto. }
  split; [|split].
  - intros i t Hi Hph. eapply holder_moves; eauto.
  - exact Hfree.
  - intros (i & t & Hi & Hf). destruct (sys_locked s) eqn:Hl.
    + pose proof Hinv as [_ Hn]. rewrite Hl in Hn.
      destruct (holders_pos (tasks s)) as (j & tj & Hj & Hph); [lia|].
      destruct (holder_moves s j tj Hinv Hj Hph) as [s' Hs'].
      eauto.
    + destruct (Hfree eq_refl i t Hi Hf) as [s' Hs']. eauto.
Qed.
End Progress.

Lemma X11_no_deadlock_witness : ∃ s', move first_holds 0 s'.
Proof.
  exact (proj1 (X11_no_deadlock shop_service [consulting; subscription]
                  (responding (Returned PyNone) (PyDict ∅)) first_holds
                  reach_first_holds)
           0%nat (Task after_acquire Inside) eq_refl eq_refl).
Defined.

(** ** Decimals written and read back *)

Lemma uint_chars_digits (u : Decimal.uint) :
  Forall (fun c => is_digit c = true) (uint_chars u).
Proof.
  unfold uint_chars. induction u; cbn; constructor; try reflexivity; assumption.
Qed.

Lemma fold_uint_chars_acc (u : Decimal.uint) (acc : positive) :
  fold_left push_digit (uint_chars u) (Npos acc)
  = Npos (Pos.of_uint_acc u acc).
Proof.
  unfold uint_chars. revert acc.
  induction u as [|u IH|u IH|u IH|u IH|u IH|u IH|u IH|u IH|u IH|u IH];
    intros acc; cbn [NilEmpty.string_of_uint list_ascii_of_string fold_left
                     Pos.of_uint_acc]; [reflexivity|..].
  all: rewrite <- IH; f_equal; unfold push_digit; cbn; lia.
Qed.

Lemma fold_uint_chars (u : Decimal.uint) :
  fold_left push_digit (uint_chars u) 0%N = Pos.of_uint u.
Proof.
  unfold uint_chars.
  induction u as [|u IH|u IH|u IH|u IH|u IH|u IH|u IH|u IH|u IH|u IH];
    cbn [NilEmpty.string_of_uint list_ascii_of_string fold_left Pos.of_uint];
    [reflexivity|exact IH|..].
  all: apply fold_uint_chars_acc.
Qed.

Lemma digits_of_N_uint (n : N) :
  digits_of_N n = ["0"%char] ∨ digits_of_N n = uint_chars (N.to_uint n).
Proof.
  unfold digits_of_N, uint_chars, NilZero.string_of_uint.
  destruct (N.to_uint n); auto.
Qed.

Lemma digits_of_N_value (n : N) : digits_value (digits_of_N n) = n.
Proof.
  rewrite <- (Unsigned.of_to n) at 2.
  unfold digits_of_N, NilZero.string_of_uint, N.of_uint.
  destruct (N.to_uint n) eqn:Hu; try reflexivity.
  all: rewrite <- fold_uint_chars; reflexivity.
Qed.

Lemma digits_of_N_digits (n : N) :
  Forall (fun c => is_digit c = true) (digits_of_N n).
Proof.
  destruct (digits_of_N_uint n) as [->| ->].
  - repeat constructor.
  - apply uint_chars_digits.
Qed.

Lemma digits_of_N_nonempty (n : N) : digits_of_N n ≠ [].
Proof.
  unfold digits_of_N, NilZero.string_of_uint.
  destruct (N.to_uint n); discriminate.
Qed.

Lemma span_digits_run (ds rest : list ascii) :
  digit_run ds → stops rest → span_digits (ds ++ rest) = (ds, rest).
Proof.
  intros Hds Hrest. induction Hds as [|c ds Hc _ IH]; cbn.
  - destruct rest as [|c rest]; [reflexivity|]. cbn.
    rewrite (Hrest c eq_refl). reflexivity.
  - rewrite Hc, IH. reflexivity.
Qed.

Lemma digits_value_app (l1 l2 : list ascii) :
  digits_value (l1 ++ l2) = fold_left push_digit l2 (digits_value l1).
Proof. unfold digits_value. apply fold_left_app. Qed.

Lemma zeros_digits (n : Z) : digit_run (zeros n).
Proof.
  unfold zeros. induction (Z.to_nat n); cbn; constructor; auto.
Qed.

Lemma digits_value_zeros (n : Z) (ds : list ascii) :
  digits_value ("0"%char :: zeros n ++ ds) = digits_value ds.
Proof.
  change ("0"%char :: zeros n ++ ds) with (("0"%char :: zeros n) ++ ds).
  rewrite digits_value_app. f_equal.
  unfold zeros, digits_value. cbn [fold_left].
  induction (Z.to_nat n) as [|k IH]; [reflexivity|]. cbn. exact IH.
Qed.

Lemma signed_digits_parse (z : Z) :
  parse_exponent ("E"%char :: signed_digits z) = Some z.
Proof.
  unfold parse_exponent, signed_digits. cbn [lower Ascii.eqb].
  change (Ascii.eqb (lower "E") "e") with true. cbn iota.
  pose proof (digits_of_N_nonempty (Z.abs_N z)) as Hne.
  pose proof (span_digits_run (digits_of_N (Z.abs_N z)) []
                (digits_of_N_digits _) ltac:(intros c [=])) as Hsp.
  rewrite app_nil_r in Hsp.
  destruct (z <? 0)%Z eqn:Hz; cbn [strip_sign]; rewrite Hsp;
    destruct (digits_of_N (Z.abs_N z)) as [|c ds] eqn:Hd; try done;
    rewrite <- Hd, digits_of_N_value; f_equal; lia.
Qed.

Lemma exponent_text_parse (ex : list ascii) (z : Z) :
  exponent_text ex z → parse_exponent ex = Some z.
Proof.
  intros [[-> ->]| ->]; [reflexivity|apply signed_digits_parse].
Qed.

Lemma exponent_text_stops (ex : list ascii) (z : Z) :
  exponent_text ex z → stops ex ∧ head ex ≠ Some "."%char.
Proof.
  intros [[-> ->]| ->]; split; try done; intros c [= <-]; reflexivity.
Qed.

Lemma parse_number_whole (neg : bool) (ip ex : list ascii) (z : Z) :
  digit_run ip → ip ≠ [] → exponent_text ex z →
  parse_number neg (ip ++ ex) = Some (DecFinite neg (digits_value ip) z).
Proof.
  intros Hip Hne Hex. unfold parse_number.
  destruct (exponent_text_stops _ _ Hex) as [Hst Hdot].
  rewrite (span_digits_run ip ex Hip Hst).
  assert (match ex with
          | "."%char :: r => span_digits r
          | _ => ([], ex)
          end = ([], ex)) as ->.
  { destruct ex as [|c r]; [reflexivity|].
    destruct (Ascii.eqb_spec c ".") as [->|Hc]; [done|].
    destruct c as [[] [] [] [] [] [] [] []]; try reflexivity. done. }
  rewrite app_nil_r. destruct ip as [|c ip']; [done|].
  rewrite (exponent_text_parse _ _ Hex). cbn. rewrite Z.sub_0_r. reflexivity.
Qed.

Lemma parse_number_point (neg : bool) (ip fd ex : list ascii) (z : Z) :
  digit_run ip → ip ≠ [] → digit_run fd → exponent_text ex z →
  parse_number neg (ip ++ "."%char :: fd ++ ex)
  = Some (DecFinite neg (digits_value (ip ++ fd))
            (z - Z.of_nat (length fd))).
Proof.
  intros Hip Hne Hfd Hex. unfold parse_number.
  destruct (exponent_text_stops _ _ Hex) as [Hst _].
  rewrite (span_digits_run ip ("."%char :: fd ++ ex) Hip)
    by (intros c [= <-]; reflexivity).
  rewrite (span_digits_run fd ex Hfd Hst).
  destruct ip as [|c ip']; [done|].
  rewrite (exponent_text_parse _ _ Hex). reflexivity.
Qed.

Lemma digit_clean (c : ascii) : is_digit c = true → clean c = true.
Proof.
  destruct c as [[] [] [] [] [] [] [] []]; try discriminate; reflexivity.
Qed.

Lemma digit_run_clean (l : list ascii) : digit_run l → clean_run l.
Proof. intros Hl. eapply Forall_impl; [exact Hl|exact digit_clean]. Qed.

Lemma clean_run_no_space_at_ends (l : list ascii) :
  clean_run l → no_space_at_ends (string_of_list_ascii l).
Proof.
  intros Hl. unfold no_space_at_ends.
  rewrite list_ascii_of_string_of_list_ascii.
  assert (∀ c, c ∈ l → is_space c = false) as Hin.
  { intros c Hc. rewrite Forall_forall in Hl. specialize (Hl c Hc).
    unfold clean in Hl. apply andb_true_iff in Hl as [Hs _].
    apply negb_true_iff in Hs. exact Hs. }
  split; intros c Hc; apply Hin.
  - destruct l; [discriminate|]. injection Hc as ->. left.
  - apply last_Some in Hc as [l' ->]. set_solver.
Qed.

Lemma remove_underscores_clean (l : list ascii) :
  clean_run l → remove_underscores l = l.
Proof.
  unfold remove_underscores.
  induction 1 as [|c l Hc _ IH]; [reflexivity|].
  rewrite filter_cons. destruct (decide (c ≠ "_"%char)) as [_|Hn].
  - rewrite IH. reflexivity.
  - exfalso. apply Hn. intros ->. discriminate.
Qed.

Lemma Decimal_of_str_clean (l : list ascii) :
  clean_run l →
  Decimal_of_str (string_of_list_ascii l)
  = let '(neg, r) := strip_sign l in
    match parse_number neg r with
    | Some d => Returned d
    | None =>
        match parse_special neg r with
        | Some d => Returned d
        | None => Raised InvalidOperation
        end
    end.
Proof.
  intros Hl. unfold Decimal_of_str.
  rewrite (py_strip_fixed _ (clean_run_no_space_at_ends _ Hl)).
  rewrite list_ascii_of_string_of_list_ascii.
  rewrite (remove_underscores_clean _ Hl). reflexivity.
Qed.

Lemma strip_sign_signed (neg : bool) (c : ascii) (rest : list ascii) :
  is_digit c = true →
  strip_sign (sign_chars neg ++ c :: rest) = (neg, c :: rest).
Proof.
  intros Hc. destruct neg; [reflexivity|]. cbn.
  destruct c as [[] [] [] [] [] [] [] []]; try discriminate; reflexivity.
Qed.

Lemma sign_chars_clean (neg : bool) : clean_run (sign_chars neg).
Proof. destruct neg; repeat constructor. Qed.

Lemma exponent_text_clean (ex : list ascii) (z : Z) :
  exponent_text ex z → clean_run ex.
Proof.
  intros [[-> _]| ->]; [constructor|].
  constructor; [reflexivity|]. unfold signed_digits.
  constructor; [destruct (z <? 0)%Z; reflexivity|].
  apply digit_run_clean, digits_of_N_digits.
Qed.

Lemma parse_text_whole (neg : bool) (ip ex : list ascii) (z : Z) :
  digit_run ip → ip ≠ [] → exponent_text ex z →
  Decimal_of_str (string_of_list_ascii (sign_chars neg ++ ip ++ ex))
  = Returned (DecFinite neg (digits_value ip) z).
Proof.
  intros Hip Hne Hex. rewrite Decimal_of_str_clean.
  - destruct ip as [|c ip'] eqn:Hi; [done|]. rewrite <- app_comm_cons.
    rewrite strip_sign_signed by (inversion Hip; assumption).
    rewrite app_comm_cons, (parse_number_whole neg _ _ z Hip Hne Hex).
    reflexivity.
  - repeat apply Forall_app_2; eauto using sign_chars_clean,
      digit_run_clean, exponent_text_clean.
Qed.

Lemma parse_text_point (neg : bool) (ip fd ex : list ascii) (z : Z) :
  digit_run ip → ip ≠ [] → digit_run fd → exponent_text ex z →
  Decimal_of_str
    (string_of_list_ascii (sign_chars neg ++ ip ++ "."%char :: fd ++ ex))
  = Returned (DecFinite neg (digits_value (ip ++ fd))
                (z - Z.of_nat (length fd))).
Proof.
  intros Hip Hne Hfd Hex. rewrite Decimal_of_str_clean.
  - destruct ip as [|c ip'] eqn:Hi; [done|]. rewrite <- app_comm_cons.
    rewrite strip_sign_signed by (inversion Hip; assumption).
    rewrite app_comm_cons, (parse_number_point neg _ _ _ z Hip Hne Hfd Hex).
    reflexivity.
  - repeat first [apply Forall_app_2 | apply Forall_cons_2];
      eauto using sign_chars_clean, digit_run_clean, exponent_text_clean.
Qed.

Lemma map_lower_digits (l : list ascii) : digit_run l → map lower l = l.
Proof.
  induction 1 as [|c l Hc _ IH]; [reflexivity|]. cbn. rewrite IH. f_equal.
  destruct c as [[] [] [] [] [] [] [] []]; try discriminate; reflexivity.
Qed.

Lemma Decimal_finite_round_trip (neg : bool) (coeff : N) (exp : Z) :
  Decimal_of_str (Decimal_str (DecFinite neg coeff exp))
  = Returned (DecFinite neg coeff exp).
Proof.
  unfold Decimal_str.
  pose proof (digits_of_N_digits coeff) as Hd.
  pose proof (digits_of_N_nonempty coeff) as Hne.
  pose proof (digits_of_N_value coeff) as Hv.
  set (int := digits_of_N coeff) in *.
  assert (1 ≤ Z.of_nat (length int))%Z as Hlen.
  { destruct int; [done|]. cbn [length]. lia. }
  set (len := Z.of_nat (length int)) in *.
  set (ld := (exp + len)%Z).
  set (dp := if (exp <=? 0)%Z && (-6 <? ld)%Z then ld else 1%Z).
  assert (dp = ld ∧ (exp ≤ 0)%Z ∨ dp = 1%Z) as Hdp.
  { subst dp. destruct (Z.leb_spec exp 0); cbn; [|auto].
    destruct (-6 <? ld)%Z; auto. }
  assert (exponent_text
            (if (ld =? dp)%Z then []
             else "E"%char :: signed_digits (ld - dp)) (ld - dp)) as Hex.
  { destruct (Z.eqb_spec ld dp); [left; split; [reflexivity|lia]|].
    right. reflexivity. }
  set (ex := if (ld =? dp)%Z then []
             else "E"%char :: signed_digits (ld - dp)) in *.
  change (if neg then ["-"%char] else []) with (sign_chars neg).
  destruct (Z.leb_spec dp 0) as [Hle|Hgt].
  - change (sign_chars neg ++ ["0"%char]
              ++ ("."%char :: zeros (- dp) ++ int) ++ ex)
      with (sign_chars neg ++ ["0"%char]
              ++ "."%char :: (zeros (- dp) ++ int) ++ ex).
    rewrite (parse_text_point neg ["0"%char] (zeros (- dp) ++ int) ex
               (ld - dp)); [|repeat constructor|done| |exact Hex].
    + change (["0"%char] ++ zeros (- dp) ++ int)
        with ("0"%char :: zeros (- dp) ++ int).
      rewrite digits_value_zeros, Hv. do 2 f_equal.
      rewrite length_app. unfold zeros at 1. rewrite repeat_length.
      fold len. lia.
    + apply Forall_app_2; [apply zeros_digits|exact Hd].
  - destruct (Z.leb_spec len dp) as [Hle2|Hgt2].
    + assert (dp = len) as Hdl by lia.
      replace (zeros (dp - len)) with (@nil ascii)
        by (unfold zeros; replace (dp - len)%Z with 0%Z by lia;
            reflexivity).
      rewrite !app_nil_r. cbn [app].
      rewrite (parse_text_whole neg int ex (ld - dp) Hd Hne Hex), Hv.
      do 2 f_equal. lia.
    + change (sign_chars neg ++ take (Z.to_nat dp) int
                ++ ("."%char :: drop (Z.to_nat dp) int) ++ ex)
        with (sign_chars neg ++ take (Z.to_nat dp) int
                ++ "."%char :: drop (Z.to_nat dp) int ++ ex).
      rewrite (parse_text_point neg (take (Z.to_nat dp) int)
                 (drop (Z.to_nat dp) int) ex (ld - dp));
        [|apply Forall_take, Hd| |apply Forall_drop, Hd|exact Hex].
      * rewrite take_drop, Hv. do 2 f_equal.
        rewrite length_drop. fold len. lia.
      * destruct int as [|c int']; [done|].
        destruct (Z.to_nat dp) eqn:Hn; [lia|]. discriminate.
Qed.

Lemma Decimal_infinity_round_trip (neg : bool) :
  Decimal_of_str (Decimal_str (DecInfinity neg)) = Returned (DecInfinity neg).
Proof. destruct neg; vm_compute; reflexivity. Qed.

Lemma parse_number_nan (neg signaling : bool) (ds : list ascii) :
  parse_number neg (nan_chars signaling ++ ds) = None.
Proof. destruct signaling; reflexivity. Qed.

Lemma parse_special_nan (neg signaling : bool) (ds : list ascii) :
  digit_run ds →
  parse_special neg (nan_chars signaling ++ ds)
  = Some (DecNaN neg signaling (digits_value ds)).
Proof.
  intros Hd.
  pose proof (span_digits_run ds [] Hd ltac:(intros c [=])) as Hsp.
  rewrite app_nil_r in Hsp.
  unfold parse_special. rewrite map_app, (map_lower_digits _ Hd).
  destruct signaling; lazy -[span_digits digits_value]; rewrite Hsp;
    reflexivity.
Qed.

Lemma Decimal_nan_round_trip (neg signaling : bool) (diag : N) :
  Decimal_of_str (Decimal_str (DecNaN neg signaling diag))
  = Returned (DecNaN neg signaling diag).
Proof.
  unfold Decimal_str.
  change (if neg then ["-"%char] else []) with (sign_chars neg).
  change (list_ascii_of_string (if signaling then "sNaN" else "NaN"))
    with (nan_chars signaling).
  set (ds := if (diag =? 0)%N then [] else digits_of_N diag).
  assert (digit_run ds ∧ digits_value ds = diag) as [Hd Hv].
  { subst ds. destruct (N.eqb_spec diag 0) as [->|_].
    - split; [constructor|reflexivity].
    - split; [apply digits_of_N_digits|apply digits_of_N_value]. }
  rewrite Decimal_of_str_clean.
  - assert (strip_sign (sign_chars neg ++ nan_chars signaling ++ ds)
            = (neg, nan_chars signaling ++ ds)) as ->
      by (destruct neg, signaling; reflexivity).
    rewrite parse_number_nan, (parse_special_nan _ _ _ Hd), Hv.
    reflexivity.
  - repeat first [apply Forall_app_2 | apply Forall_cons_2];
      eauto using sign_chars_clean, digit_run_clean.
    destruct signaling; repeat constructor.
Qed.

(** X13: writing a decimal and reading the text gives the decimal back,
    with its sign, its digits and its exponent, trailing zeros and signed
    zero included, and so for the infinities and the NaNs. *)
Theorem X13_Decimal_round_trip (d : Decimal) :
  Decimal_of_str (Decimal_str d) = Returned d.
Proof.
  destruct d.
  - apply Decimal_finite_round_trip.
  - apply Decimal_infinity_round_trip.
  - apply Decimal_nan_round_trip.
Qed.

Section Total.
Context {W : Type} `{Collaborator W} `{Externals}.

(** X12: whenever a call posts, the total amount of the request it dumped
    is a text that reads back, as a decimal, as the total of its one item. *)
Theorem X12_posted_total_reads_back (a : receipt_args)
    (self : NalogoService) (w : W)
    (res : run_result (outcome pyval * NalogoService) W) (path : string)
    (body : pyval) (r : outcome Response) :
  run (create_income_receipt_with a self) w false = Some res →
  posts (trace res) = [(path, body, r)] →
  ∃ r0 request item total,
    IncomeRequest_new r0 = Returned request
    ∧ model_dump request = Returned body
    ∧ IncomeRequest.services r0 = [item]
    ∧ get_total_amount item = Returned total
    ∧ Decimal_of_str (IncomeRequest.total_amount r0) = Returned total.
Proof.
  intros Hr Hp.
  destruct (run_posted_request a self w res path body r Hr Hp)
    as (_ & r0 & request & Hnew & Hdump & item & total
        & (a' & q' & _ & _ & _ & Ht) & Hs & Htxt & _).
  exists r0, request, item, total. repeat (split; [assumption|]).
  rewrite Htxt. destruct total.
  - apply Decimal_finite_round_trip.
  - apply Decimal_infinity_round_trip.
  - apply Decimal_nan_round_trip.
Qed.
End Total.

Lemma X12_posted_total_reads_back_witness :
  ∃ res,
    run (create_income_receipt_with subscription shop_service)
      (responding (Returned token) (PyDict empty_first_key)) false = Some res
    ∧ ∃ r0 request item total,
        IncomeRequest_new r0 = Returned request
        ∧ model_dump request
          = Returned (PyDict {[ "total_amount" := PyStr "59.970";
                                "payment_type" := PyStr "ACCOUNT" ]})
        ∧ IncomeRequest.services r0 = [item]
        ∧ get_total_amount item = Returned total
        ∧ Decimal_of_str (IncomeRequest.total_amount r0) = Returned total.
Proof.
  eexists. split; [vm_compute; reflexivity|].
  refine (X12_posted_total_reads_back subscription shop_service
            (responding (Returned token) (PyDict empty_first_key)) _
            "/income" _ (Returned {| json := Returned (PyDict empty_first_key) |})
            _ _).
  - vm_compute. reflexivity.
  - vm_compute. reflexivity.
Defined.
